(** * Self-registration of a mesh sidecar: registry center and storage facade

    A shallow embedding of two Go packages of the gateway:

    - [registrycenter] (pkg/object/meshcontroller/registrycenter/registry.go):
      the [Server] that registers the local service instance into the mesh
      with a background loop;
    - [storage]: the [clusterStorage] facade over the cluster, with the
      handle of its distributed mutex.

    Go code is embedded with explicit state passing.  A call that may
    panic returns a [Result]; state written before a panic is kept, as in
    Go.  Goroutines are tasks with a program counter, scheduled by the
    actions of a step function. *)

From Stdlib Require Import ZArith String Ascii List Bool Lia.
From stdpp Require Import base option list gmap strings.

Local Open Scope string_scope.
Local Open Scope Z_scope.
Local Open Scope list_scope.

(** ** Go runtime pieces shared by both packages *)

(** The outcome of a Go call: it returns, or it panics with a value.  The
    value is kept as its [%v] text; a panic value is never nil here. *)
Inductive Result (A : Type) : Type :=
  | Returned (a : A)
  | Panicked (v : string).
Arguments Returned {A} a.
Arguments Panicked {A} v.

(** A Go [error] value: [None] is nil, [Some msg] carries [Error()]. *)
Definition error := option string.

(** [int] is 64 bits wide; [wrap64] is its wrap-around. *)
Definition wrap64 (z : Z) : Z := (z + 2 ^ 63) mod 2 ^ 64 - 2 ^ 63.

(** The conversion [uint32(x)] of an [int]. *)
Definition uint32 (z : Z) : Z := z mod 2 ^ 32.

(** *** Code that keeps state and may panic

    [Go St A] is a computation over the state [St] that returns an [A] or
    panics; what was written to the state before a panic stays written. *)
Definition Go (St A : Type) : Type := St -> Result A * St.

Definition ret {St A} (a : A) : Go St A := fun m => (Returned a, m).

Definition bind {St A B} (c : Go St A) (k : A -> Go St B) : Go St B :=
  fun m =>
    match c m with
    | (Returned a, m') => k a m'
    | (Panicked v, m') => (Panicked v, m')
    end.

Definition panic {St A} (v : string) : Go St A := fun m => (Panicked v, m).

Definition read {St A} (f : St -> A) : Go St A := fun m => (Returned (f m), m).

(** [defer func() { if err := recover(); err != nil { handler } }()]
    around [body]: a panic of [body] stops there and the handler runs;
    the function then returns normally. *)
Definition defer_recover {St} (handler : string -> Go St unit) (body : Go St unit) : Go St unit :=
  fun m =>
    match body m with
    | (Returned tt, m') => (Returned tt, m')
    | (Panicked v, m') => handler v m'
    end.

Declare Scope go_scope.
Delimit Scope go_scope with go.
Notation "'let*' x ':=' c 'in' k" := (bind c (fun x => k))
  (at level 10, x name, c at level 100, k at level 200) : go_scope.
Notation "c ';;;' k" := (bind c (fun _ => k))
  (at level 100, k at level 200, right associativity) : go_scope.
Local Open Scope go_scope.

(** *** time.Time and its RFC 3339 rendering

    [time.Now().Format(time.RFC3339)] of the Go standard library, for the
    layout "2006-01-02T15:04:05Z07:00": the civil fields of the instant and
    the zone offset in seconds east of UTC. *)
Module time.

Record Time : Type := mkTime {
  year : Z;
  month : nat;
  day : nat;
  hour : nat;
  minute : nat;
  second : nat;
  offset : Z
}.

(** Durations are counted in nanoseconds. *)
Definition Duration := Z.
Definition Nanosecond : Duration := 1.
Definition Second : Duration := 1000000000.
Definition Minute : Duration := 60 * Second.

Definition digit (n : nat) : ascii := ascii_of_nat (48 + n mod 10).

Fixpoint digits_fuel (fuel n : nat) : list ascii :=
  match fuel with
  | O => []
  | S f =>
      if (n <? 10)%nat then [digit n]
      else digits_fuel f (n / 10) ++ [digit n]
  end.

(** The decimal digits of [n], most significant first. *)
Definition decimal (n : nat) : list ascii := digits_fuel (S n) n.

(** [appendInt(b, x, width)]: a sign for negative [x], then the decimal
    digits of [|x|] padded with zeros on the left up to [width]. *)
Definition appendInt (x : Z) (width : nat) : list ascii :=
  let ds := decimal (Z.abs_nat x) in
  (if x <? 0 then ["-"%char] else [])
    ++ repeat "0"%char (width - length ds) ++ ds.

(** The "Z07:00" element: "Z" for UTC, else sign, hours, colon, minutes.
    Go divides with truncation towards zero. *)
Definition appendZone (offset : Z) : list ascii :=
  if offset =? 0 then ["Z"%char]
  else
    let zone := Z.quot offset 60 in
    let sign := if zone <? 0 then "-"%char else "+"%char in
    let zone := if zone <? 0 then - zone else zone in
    sign :: appendInt (Z.quot zone 60) 2 ++ ":"%char :: appendInt (Z.rem zone 60) 2.

Definition formatRFC3339 (t : Time) : list ascii :=
  appendInt (year t) 4 ++ "-"%char ::
  appendInt (Z.of_nat (month t)) 2 ++ "-"%char ::
  appendInt (Z.of_nat (day t)) 2 ++ "T"%char ::
  appendInt (Z.of_nat (hour t)) 2 ++ ":"%char ::
  appendInt (Z.of_nat (minute t)) 2 ++ ":"%char ::
  appendInt (Z.of_nat (second t)) 2 ++ appendZone (offset t).

(** [t.Format(time.RFC3339)]. *)
Definition Format (t : Time) : string := string_of_list_ascii (formatRFC3339 t).

(** A civil time as the clock produces it: a four-digit year, fields in
    their calendar ranges, and a zone offset below a day. *)
Definition civil (t : Time) : Prop :=
  0 <= year t <= 9999 /\
  (1 <= month t <= 12)%nat /\ (1 <= day t <= 31)%nat /\
  (hour t <= 23)%nat /\ (minute t <= 59)%nat /\ (second t <= 59)%nat /\
  -86400 < offset t < 86400.

(** *** The shape RFC 3339 asks of a date-time *)

Definition is_digit (c : ascii) : bool :=
  let n := nat_of_ascii c in ((48 <=? n) && (n <=? 57))%nat.

Fixpoint take_digits (k : nat) (s : list ascii) : option (list ascii) :=
  match k with
  | O => Some s
  | S k' =>
      match s with
      | c :: r => if is_digit c then take_digits k' r else None
      | [] => None
      end
  end.

Definition expect (c : ascii) (s : list ascii) : option (list ascii) :=
  match s with
  | x :: r => if Ascii.eqb x c then Some r else None
  | [] => None
  end.

Definition then_ (o : option (list ascii)) (f : list ascii -> option (list ascii)) :=
  match o with Some s => f s | None => None end.

Definition zone_shape (s : list ascii) : bool :=
  match s with
  | ["Z"%char] => true
  | c :: r =>
      if Ascii.eqb c "+"%char || Ascii.eqb c "-"%char then
        match then_ (then_ (take_digits 2 r) (expect ":"%char)) (take_digits 2) with
        | Some [] => true
        | _ => false
        end
      else false
  | [] => false
  end.

(** full-date "T" partial-time time-offset, without fractional seconds. *)
Definition rfc3339_shape (s : list ascii) : bool :=
  match
    then_ (then_ (then_ (then_ (then_ (then_ (then_ (then_ (then_ (then_
      (take_digits 4 s) (expect "-"%char)) (take_digits 2)) (expect "-"%char))
      (take_digits 2)) (expect "T"%char)) (take_digits 2)) (expect ":"%char))
      (take_digits 2)) (expect ":"%char)) (take_digits 2)
  with
  | Some z => zone_shape z
  | None => false
  end.

Definition is_rfc3339 (s : string) : bool := rfc3339_shape (list_ascii_of_string s).

End time.

(** ** Package spec: the records exchanged with the mesh *)
Module spec.

(** Modelled from the spec: the declaration of [spec.ServiceInstanceSpec]
    is not part of the sources at hand.  Its fields are the ones the
    registry center reads and writes: identity ([ServiceName],
    [InstanceID]), network location ([IP], [Port], a uint32), [Labels],
    [Status] and the registration timestamp [RegistryTime]. *)
Record ServiceInstanceSpec : Type := mkInstance {
  ServiceName : string;
  InstanceID : string;
  IP : string;
  Port : Z;
  Labels : gmap string string;
  Status : string;
  RegistryTime : string
}.

(** Modelled from the spec: the sidecar part of a service specification,
    of which only the configured ingress port (an int) is read. *)
Record SidecarSpec : Type := mkSidecar {
  IngressPort : Z
}.

(** Modelled from the spec: a service specification "carrying a tenant
    identifier and an ingress port". *)
Record Service : Type := mkService {
  RegisterTenant : string;
  Sidecar : SidecarSpec
}.

(** Modelled from the spec: the status constant, "up". *)
Definition SerivceStatusUp : string := "up".

Definition set_Status (v : string) (i : ServiceInstanceSpec) : ServiceInstanceSpec :=
  mkInstance (ServiceName i) (InstanceID i) (IP i) (Port i) (Labels i) v (RegistryTime i).

Definition set_RegistryTime (v : string) (i : ServiceInstanceSpec) : ServiceInstanceSpec :=
  mkInstance (ServiceName i) (InstanceID i) (IP i) (Port i) (Labels i) (Status i) v.

End spec.

(** ** Package registrycenter *)
Module registrycenter.

(** What the logger is asked to print, one constructor per call site. *)
Inductive LogLine : Type :=
  | GatesNotReady (ingress egress : bool)
  | OriginalIns (originIns ins : spec.ServiceInstanceSpec)
  | RegistrySucc (serviceName instanceID : string) (tryTimes : Z)
  | RecoverFrom (v : string).

(** The observable events of a run, oldest first. *)
Inductive Event : Type :=
  | EvLock
  | EvUnlock
  | EvSleep (d : time.Duration)
  | EvGet (serviceName instanceID : string)
  | EvPut (ins : spec.ServiceInstanceSpec)
  | EvInfo (l : LogLine)
  | EvError (l : LogLine).

Definition is_store_read (e : Event) : bool :=
  match e with EvGet _ _ => true | _ => false end.

Definition is_store_write (e : Event) : bool :=
  match e with EvPut _ => true | _ => false end.

Definition is_store_access (e : Event) : bool :=
  is_store_read e || is_store_write e.

Definition is_sleep (e : Event) : bool :=
  match e with EvSleep _ => true | _ => false end.

(** The records written by the events of a run. *)
Definition written (evs : list Event) : list spec.ServiceInstanceSpec :=
  omap (fun e => match e with EvPut r => Some r | _ => None end) evs.

(** Whether the mutex is held after the events [evs], starting from [held]. *)
Fixpoint held_after (held : bool) (evs : list Event) : bool :=
  match evs with
  | [] => held
  | EvLock :: r => held_after true r
  | EvUnlock :: r => held_after false r
  | _ :: r => held_after held r
  end.

(** Whether some sleep of [evs] starts while the mutex is held. *)
Fixpoint sleeps_holding (held : bool) (evs : list Event) : bool :=
  match evs with
  | [] => false
  | EvLock :: r => sleeps_holding true r
  | EvUnlock :: r => sleeps_holding false r
  | EvSleep _ :: r => held || sleeps_holding held r
  | _ :: r => sleeps_holding held r
  end.

(** The lock is released before any sleep begins. *)
Definition released_before_sleep (evs : list Event) : Prop :=
  sleeps_holding false evs = false.

Definition needUpdateRecord (originIns : option spec.ServiceInstanceSpec)
    (ins : spec.ServiceInstanceSpec) : bool :=
  match originIns with
  | None => true
  | Some originIns =>
      if negb (String.eqb (spec.IP originIns) (spec.IP ins))
         || negb (spec.Port originIns =? spec.Port ins)
      then true
      else false
  end.

Section Registry.

(** The world outside the process: the replicated store behind the
    service, the wall clock, whatever the readiness functions look at. *)
Context {W : Type}.

(** A call that leaves the process: it may change the world and panic. *)
Definition Ext (A : Type) : Type := W -> Result A * W.

(** ReadyFunc is a function to check Ingress/Egress ready to work. *)
Definition ReadyFunc : Type := Ext bool.

(** Modelled from the spec: package service is not part of the sources
    at hand.  The instance record store is consumed through
    "GetInstanceSpec(serviceName, instanceID) -> optional Record" and
    "PutInstanceSpec(Record) -> error-or-success"; either call may also
    fault.  The registry center discards what the put returns. *)
Record Service : Type := mkStore {
  GetServiceInstanceSpec : string -> string -> Ext (option spec.ServiceInstanceSpec);
  PutServiceInstanceSpec : spec.ServiceInstanceSpec -> Ext error
}.

(** [time.Now()]. *)
Context (Now : W -> time.Time * W).

(** Server handle all registry about logic.  [done] is the state of the
    channel (closed or not: nothing is ever sent on it); [mutex] tells
    whether the write lock is held. *)
Record Server : Type := mkServer {
  RegistryType : string;
  registered : bool;
  serviceName : string;
  instanceID : string;
  IP : string;
  port : Z;
  tenant : string;
  serviceLabels : gmap string string;
  done : bool;
  mutex : bool;
  service : Service
}.

Definition set_registered (v : bool) (r : Server) : Server :=
  mkServer (RegistryType r) v (serviceName r) (instanceID r) (IP r) (port r)
    (tenant r) (serviceLabels r) (done r) (mutex r) (service r).

Definition set_tenant (v : string) (r : Server) : Server :=
  mkServer (RegistryType r) (registered r) (serviceName r) (instanceID r) (IP r)
    (port r) v (serviceLabels r) (done r) (mutex r) (service r).

Definition set_done (v : bool) (r : Server) : Server :=
  mkServer (RegistryType r) (registered r) (serviceName r) (instanceID r) (IP r)
    (port r) (tenant r) (serviceLabels r) v (mutex r) (service r).

Definition set_mutex (v : bool) (r : Server) : Server :=
  mkServer (RegistryType r) (registered r) (serviceName r) (instanceID r) (IP r)
    (port r) (tenant r) (serviceLabels r) (done r) v (service r).

(** NewRegistryCenterServer creates a initialized registry center server. *)
Definition NewRegistryCenterServer (registryType serviceName IP : string) (port : Z)
    (instanceID : string) (serviceLabels : gmap string string)
    (service : Service) : Server :=
  mkServer registryType false serviceName instanceID IP port "" serviceLabels
    false false service.

(** *** The memory one goroutine of [register] works on

    The server [rcs] (shared), the record [ins] and the counter
    [tryTimes] (owned by the goroutine), the world and the events. *)
Record Mem : Type := mkMem {
  rcs : Server;
  ins : spec.ServiceInstanceSpec;
  tryTimes : Z;
  world : W;
  events : list Event
}.

(** The goroutine's code runs in [Go Mem]. *)
Definition M (A : Type) : Type := Go Mem A.

Definition emit (e : Event) : M unit :=
  fun m => (Returned tt, mkMem (rcs m) (ins m) (tryTimes m) (world m) (events m ++ [e])).

Definition call {A} (f : Ext A) : M A :=
  fun m =>
    let (r, w) := f (world m) in
    (r, mkMem (rcs m) (ins m) (tryTimes m) w (events m)).

Definition now : M time.Time :=
  fun m =>
    let (t, w) := Now (world m) in
    (Returned t, mkMem (rcs m) (ins m) (tryTimes m) w (events m)).

Definition update_rcs (f : Server -> Server) : M unit :=
  fun m => (Returned tt, mkMem (f (rcs m)) (ins m) (tryTimes m) (world m) (events m)).

Definition update_ins (f : spec.ServiceInstanceSpec -> spec.ServiceInstanceSpec) : M unit :=
  fun m => (Returned tt, mkMem (rcs m) (f (ins m)) (tryTimes m) (world m) (events m)).

Definition update_tryTimes (f : Z -> Z) : M unit :=
  fun m => (Returned tt, mkMem (rcs m) (ins m) (f (tryTimes m)) (world m) (events m)).

(** [rcs.mutex.Lock()].  A goroutine gets here only when the lock is free
    (see [run_task]). *)
Definition mutex_Lock : M unit :=
  emit EvLock ;;; update_rcs (set_mutex true).

(** [rcs.mutex.Unlock()]: unlocking a mutex that is not locked is a fatal
    error of the runtime. *)
Definition mutex_Unlock : M unit :=
  let* held := read (fun m => mutex (rcs m)) in
  if held then emit EvUnlock ;;; update_rcs (set_mutex false)
  else panic "sync: Unlock of unlocked RWMutex".

(** [time.Sleep(d)]. *)
Definition Sleep (d : time.Duration) : M unit := emit (EvSleep d).

(** [rcs.service.GetServiceInstanceSpec(serviceName, instanceID)]. *)
Definition service_Get (serviceName instanceID : string) : M (option spec.ServiceInstanceSpec) :=
  let* svc := read (fun m => service (rcs m)) in
  emit (EvGet serviceName instanceID) ;;;
  call (GetServiceInstanceSpec svc serviceName instanceID).

(** [rcs.service.PutServiceInstanceSpec(ins)], its result discarded.  The
    store is handed the record as it is at the time of the call. *)
Definition service_Put : M unit :=
  let* svc := read (fun m => service (rcs m)) in
  let* i := read ins in
  emit (EvPut i) ;;;
  let* _ := call (PutServiceInstanceSpec svc i) in
  ret tt.

(** The condition [!ingressReady() || !egressReady()], evaluated left to
    right with short circuit. *)
Definition not_ready (ingressReady egressReady : ReadyFunc) : M bool :=
  let* i := call ingressReady in
  if negb i then ret true
  else
    let* e := call egressReady in
    ret (negb e).

(** The body of the closure [routine], below its [defer]. *)
Definition attempt (ingressReady egressReady : ReadyFunc) : M unit :=
  (* level triggered, loop until it success *)
  update_tryTimes (fun n => wrap64 (n + 1)) ;;;
  let* blocked := not_ready ingressReady egressReady in
  if blocked then
    let* i := call ingressReady in
    let* e := call egressReady in
    emit (EvInfo (GatesNotReady i e))
  else
    let* sn := read (fun m => serviceName (rcs m)) in
    let* id := read (fun m => instanceID (rcs m)) in
    let* originIns := service_Get sn id in
    let* settled :=
      match originIns with
      | Some o =>
          let* i := read ins in
          emit (EvInfo (OriginalIns o i)) ;;;
          if negb (needUpdateRecord (Some o) i) then
            update_rcs (set_registered true) ;;; ret true
          else ret false
      | None => ret false
      end in
    if settled then ret tt
    else
      update_ins (spec.set_Status spec.SerivceStatusUp) ;;;
      let* t := now in
      update_ins (spec.set_RegistryTime (time.Format t)) ;;;
      update_rcs (set_registered true) ;;;
      service_Put ;;;
      let* i := read ins in
      let* n := read tryTimes in
      emit (EvInfo (RegistrySucc (spec.ServiceName i) (spec.InstanceID i) n)).

(** wrapper for the recover *)
Definition routine (ingressReady egressReady : ReadyFunc) : M unit :=
  defer_recover (fun err => emit (EvError (RecoverFrom err)))
    (attempt ingressReady egressReady).

(** The [default] branch of the [select] in [register]: one pass with the
    mutex.  [false] is the [return] of the goroutine, [true] goes round
    the loop again. *)
Definition locked_pass (ingressReady egressReady : ReadyFunc) : M bool :=
  mutex_Lock ;;;
  let* r := read (fun m => registered (rcs m)) in
  if r then
    mutex_Unlock ;;; ret false
  else
    routine ingressReady egressReady ;;;
    Sleep (1 * time.Second) ;;;
    mutex_Unlock ;;;
    ret true.

(** How the loop of [register] ends: cancelled through [done], or
    because [registered] was found set. *)
Inductive Exit : Type :=
  | Cancelled
  | AlreadyRegistered.

(** The body of the [for] of [register]: the [select], and in its
    [default] branch the pass with the lock.  [Some e] is a [return]. *)
Definition loop_body (ingressReady egressReady : ReadyFunc) : M (option Exit) :=
  let* closed := read (fun m => done (rcs m)) in
  if closed then ret (Some Cancelled)
  else
    let* again := locked_pass ingressReady egressReady in
    if again then ret None else ret (Some AlreadyRegistered).

(** The loop of [register] when nothing else runs in between, cut after
    [fuel] iterations ([None]: still looping). *)
Fixpoint register (fuel : nat) (ingressReady egressReady : ReadyFunc) : M (option Exit) :=
  match fuel with
  | O => ret None
  | S fuel' =>
      let* r := loop_body ingressReady egressReady in
      match r with
      | Some e => ret (Some e)
      | None => register fuel' ingressReady egressReady
      end
  end.

(** *** The goroutines of [register] and the process

    Between the goroutines and the owner of the server the loop is cut in
    steps: one for the [select], one for the pass with the lock. *)

(** Where a goroutine of [register] stands: at the [select] on top of the
    loop, in front of [rcs.mutex.Lock()], or returned. *)
Inductive PC : Type :=
  | AtSelect
  | AtLock
  | Exited (why : Exit).

Record Task : Type := mkTask {
  pc : PC;
  t_ins : spec.ServiceInstanceSpec;
  t_tryTimes : Z;
  ingressReady : ReadyFunc;
  egressReady : ReadyFunc
}.

Definition is_live (t : Task) : bool :=
  match pc t with Exited _ => false | _ => true end.

Record System : Type := mkSystem {
  server : Server;
  tasks : list Task;
  sys_world : W;
  trace : list Event
}.

Definition boot (r : Server) (w : W) : System := mkSystem r [] w [].

(** Registered checks whether service registry or not.  The read lock is
    free whenever the caller runs: a pass with the write lock is one step. *)
Definition Registered (r : Server) : bool := registered r.

(** Close closes the registry center: closing a closed channel panics. *)
Definition Close (s : System) : Result unit * System :=
  if done (server s) then (Panicked "close of closed channel", s)
  else (Returned tt, mkSystem (set_done true (server s)) (tasks s) (sys_world s) (trace s)).

(** Register registers itself into mesh.  [go rcs.register(...)] adds a
    goroutine on top of its loop, owning the fresh record [ins] and its own
    [tryTimes]. *)
Definition Register (serviceSpec : spec.Service) (ingressReady egressReady : ReadyFunc)
    (s : System) : System :=
  let r := set_tenant (spec.RegisterTenant serviceSpec) (server s) in
  if Registered r then mkSystem r (tasks s) (sys_world s) (trace s)
  else
    let ins :=
      spec.mkInstance (serviceName r) (instanceID r) (IP r)
        (uint32 (spec.IngressPort (spec.Sidecar serviceSpec)))
        (serviceLabels r) "" "" in
    mkSystem r (tasks s ++ [mkTask AtSelect ins 0 ingressReady egressReady])
      (sys_world s) (trace s).

(** One scheduling step of a goroutine of [register]:
    - at the [select], a closed [done] makes it return, otherwise the
      [default] branch is taken;
    - in front of the lock it waits while the lock is held, and else makes
      one [locked_pass];
    - a returned goroutine does nothing. *)
Definition run_task (t : Task) (s : System) : Result unit * (Task * System) :=
  match pc t with
  | Exited _ => (Returned tt, (t, s))
  | AtSelect =>
      if done (server s)
      then (Returned tt, (mkTask (Exited Cancelled) (t_ins t) (t_tryTimes t)
                            (ingressReady t) (egressReady t), s))
      else (Returned tt, (mkTask AtLock (t_ins t) (t_tryTimes t)
                            (ingressReady t) (egressReady t), s))
  | AtLock =>
      if mutex (server s) then (Returned tt, (t, s))
      else
        let m := mkMem (server s) (t_ins t) (t_tryTimes t) (sys_world s) (trace s) in
        let (r, m') := locked_pass (ingressReady t) (egressReady t) m in
        let s' := mkSystem (rcs m') (tasks s) (world m') (events m') in
        match r with
        | Returned again =>
            (Returned tt,
             (mkTask (if again then AtSelect else Exited AlreadyRegistered)
                (ins m') (tryTimes m') (ingressReady t) (egressReady t), s'))
        | Panicked v =>
            (Panicked v, (mkTask AtLock (ins m') (tryTimes m')
                            (ingressReady t) (egressReady t), s'))
        end
  end.

(** What can happen to the process: its owner calls [Register] or [Close],
    or the scheduler lets goroutine number [i] go on. *)
Inductive Action : Type :=
  | DoRegister (serviceSpec : spec.Service) (ingressReady egressReady : ReadyFunc)
  | DoClose
  | DoRun (i : nat).

Definition is_register (a : Action) : bool :=
  match a with DoRegister _ _ _ => true | _ => false end.

Definition step (a : Action) (s : System) : Result unit * System :=
  match a with
  | DoRegister sp ing eg => (Returned tt, Register sp ing eg s)
  | DoClose => Close s
  | DoRun i =>
      match tasks s !! i with
      | None => (Returned tt, s)
      | Some t =>
          let '(r, (t', s')) := run_task t s in
          (r, mkSystem (server s') (<[i := t']> (tasks s')) (sys_world s') (trace s'))
      end
  end.

(** A run: the actions in order, up to the first panic that reaches the
    top of a goroutine, which ends the process. *)
Fixpoint exec (acts : list Action) (s : System) : Result unit * System :=
  match acts with
  | [] => (Returned tt, s)
  | a :: rest =>
      match step a s with
      | (Returned _, s') => exec rest s'
      | (Panicked v, s') => (Panicked v, s')
      end
  end.

(** The value of [registered] after each action of a run. *)
Fixpoint flag_history (acts : list Action) (s : System) : list bool :=
  match acts with
  | [] => []
  | a :: rest =>
      let s' := snd (step a s) in
      registered (server s') :: flag_history rest s'
  end.

(** One full iteration of the loop for goroutine [i]: the [select], then
    the pass with the lock if the goroutine got that far. *)
Definition iteration (i : nat) (s : System) : Result unit * System :=
  exec [DoRun i; DoRun i] s.

(** *** Notions used to state what the code does *)

(** What an attempt may do to the memory.  [frame m m']: from [m] to [m']
    events were only added, none of them on the mutex or a sleep, and the
    server is the same except that [registered] may have been set. *)
Definition is_attempt_event (e : Event) : bool :=
  match e with
  | EvLock | EvUnlock | EvSleep _ => false
  | _ => true
  end.

Definition frame (m m' : Mem) : Prop :=
  (exists new, events m' = events m ++ new /\ forallb is_attempt_event new = true)
  /\ (rcs m' = rcs m \/ rcs m' = set_registered true (rcs m)).

Definition keeps {A} (c : M A) : Prop := forall m, frame m (snd (c m)).

(** The memory right after [rcs.mutex.Lock()], and after the sleep and
    unlock that end a pass. *)
Definition locked (m : Mem) : Mem :=
  mkMem (set_mutex true (rcs m)) (ins m) (tryTimes m) (world m) (events m ++ [EvLock]).

Definition unlocked_after_sleep (m : Mem) : Mem :=
  mkMem (set_mutex false (rcs m)) (ins m) (tryTimes m) (world m)
    (events m ++ [EvSleep (1 * time.Second); EvUnlock]).

(** The gates as the condition of the attempt sees them: [ingress] first,
    and [egress] only when [ingress] returned true. *)
Definition gates_pass (ingress egress : ReadyFunc) (w w2 : W) : Prop :=
  exists w1, ingress w = (Returned true, w1) /\ egress w1 = (Returned true, w2).

Definition gate_blocks (ingress egress : ReadyFunc) (w : W) : Prop :=
  (exists w1, ingress w = (Returned false, w1))
  \/ (exists w1 w2, ingress w = (Returned true, w1) /\ egress w1 = (Returned false, w2)).

(** The states of a process that starts with a server made by
    [NewRegistryCenterServer]. *)
Inductive reachable : System -> Prop :=
  | reach_boot registryType serviceName IP port instanceID serviceLabels service w :
      reachable
        (boot (NewRegistryCenterServer registryType serviceName IP port instanceID
                 serviceLabels service) w)
  | reach_step a s : reachable s -> reachable (snd (step a s)).

(** The memory a goroutine works on when it is scheduled. *)
Definition mem_of (t : Task) (s : System) : Mem :=
  mkMem (server s) (t_ins t) (t_tryTimes t) (sys_world s) (trace s).

Definition with_pc (p : PC) (t : Task) : Task :=
  mkTask p (t_ins t) (t_tryTimes t) (ingressReady t) (egressReady t).

Definition no_store_access (evs : list Event) : bool :=
  forallb (fun e => negb (is_store_access e)) evs.

(** The goroutines of [register] that have not returned. *)
Definition live_tasks (s : System) : nat := length (List.filter is_live (tasks s)).

(** At most one goroutine of [register] is alive. *)
Definition at_most_one_task (s : System) : Prop := (live_tasks s <= 1)%nat.

(** The record [Register] builds from the server and the service spec. *)
Definition desired (r : Server) (serviceSpec : spec.Service) : spec.ServiceInstanceSpec :=
  spec.mkInstance (serviceName r) (instanceID r) (IP r)
    (uint32 (spec.IngressPort (spec.Sidecar serviceSpec))) (serviceLabels r) "" "".

(** The events one pass with the lock adds when it runs an attempt. *)
Definition pass_events (new : list Event) : list Event :=
  EvLock :: new ++ [EvSleep (1 * time.Second); EvUnlock].

(** The memory with [done] closed; a computation is blind to [done] when
    closing before it is closing after it. *)
Definition closing (m : Mem) : Mem :=
  mkMem (set_done true (rcs m)) (ins m) (tryTimes m) (world m) (events m).

Definition blind {A} (c : M A) : Prop :=
  forall m, c (closing m) = (fst (c m), closing (snd (c m))).

(** The system with [done] closed. *)
Definition closed_sys (s : System) : System :=
  mkSystem (set_done true (server s)) (tasks s) (sys_world s) (trace s).

(** *** Notions for whole runs *)

(** The record [i] is the server's own: its key, its address, its labels. *)
Definition own_record (r : Server) (i : spec.ServiceInstanceSpec) : Prop :=
  spec.ServiceName i = serviceName r /\ spec.InstanceID i = instanceID r
  /\ spec.IP i = IP r /\ spec.Labels i = serviceLabels r.

(** A store event that concerns the server's own record only: a read by its
    key, a write of its record with status up. *)
Definition own_event (r : Server) (e : Event) : Prop :=
  match e with
  | EvGet sn id => sn = serviceName r /\ id = instanceID r
  | EvPut i => own_record r i /\ spec.Status i = spec.SerivceStatusUp
  | _ => True
  end.

(** Two servers with the same fixed fields (all but [registered], [tenant],
    [done] and [mutex]). *)
Definition same_identity (r r' : Server) : Prop :=
  RegistryType r' = RegistryType r /\ serviceName r' = serviceName r
  /\ instanceID r' = instanceID r /\ IP r' = IP r /\ port r' = port r
  /\ serviceLabels r' = serviceLabels r /\ service r' = service r.

(** Every read and write of the store in [evs] happens while the mutex is
    held, starting from [held]. *)
Fixpoint guarded (held : bool) (evs : list Event) : bool :=
  match evs with
  | [] => true
  | EvLock :: r => guarded true r
  | EvUnlock :: r => guarded false r
  | e :: r => (negb (is_store_access e) || held) && guarded held r
  end.

(** The store reads among the events. *)
Definition reads (evs : list Event) : list (string * string) :=
  omap (fun e => match e with EvGet sn id => Some (sn, id) | _ => None end) evs.

(** The sleeps among the events. *)
Definition sleeps (evs : list Event) : list time.Duration :=
  omap (fun e => match e with EvSleep d => Some d | _ => None end) evs.

(** No goroutine stands between its [select] and the lock. *)
Definition none_in_flight (s : System) : Prop :=
  Forall (fun t => pc t <> AtLock) (tasks s).





End Registry.

(** How often a sequence of flags goes from [false] to [true], and from
    [true] to [false]. *)
Fixpoint rises (prev : bool) (l : list bool) : nat :=
  match l with
  | [] => O
  | b :: r => ((if negb prev && b then 1 else 0) + rises b r)%nat
  end.

Fixpoint falls (prev : bool) (l : list bool) : nat :=
  match l with
  | [] => O
  | b :: r => ((if prev && negb b then 1 else 0) + falls b r)%nat
  end.

(** *** Decoding of registry request bodies *)
Section Decoding.

Context {W : Type}.

(** Modelled from the spec: the constants [spec.RegistryTypeEureka] and
    [spec.RegistryTypeConsul] belong to package spec, which is not part of
    the sources at hand; they name the two supported dialects. *)
Context (RegistryTypeEureka RegistryTypeConsul : string).

(** The decoders of encoding/json and encoding/xml, as far as the code
    looks at them, that is their error: [json_consul body] stands for
    [json.NewDecoder(bytes.NewReader(body)).Decode(&reg)] with a
    [consul.AgentServiceRegistration], [json_eureka] for the same with an
    [eureka.InstanceInfo], [xml_eureka body] for
    [xml.Unmarshal(body, &eurekaIns)]. *)
Context (json_consul json_eureka xml_eureka : string -> error).

(** A call of the logger with its formatted line. *)
Inductive LogCall : Type :=
  | Infof (line : string)
  | Errorf (line : string).

(** The methods return their error and the calls of the logger they made. *)
Definition decodeByConsulFormat (rcs : Server (W := W)) (body : string)
    : error * list LogCall :=
  match json_consul body with
  | Some err => (Some err, [])
  | None => (None, [Infof ("decode consul body SUCC body: " +:+ body)])
  end.

Definition decode_eureka_failed (contentType body err : string) : string :=
  "decode eureka contentType: " +:+ contentType +:+ " body: " +:+ body
    +:+ " failed: " +:+ err.

Definition decodeByEurekaFormat (rcs : Server (W := W)) (contentType body : string)
    : error * list LogCall :=
  let err :=
    if String.eqb contentType "application/json" then json_eureka body
    else xml_eureka body in
  match err with
  | Some e => (Some e, [Errorf (decode_eureka_failed contentType body e)])
  | None =>
      (None,
       [Infof ("decode eureka body SUCC contentType: " +:+ contentType
                 +:+ " body: " +:+ body)])
  end.

(** [fmt.Errorf("BUG: can't recognize registry type: %s req body: %s", ...)]. *)
Definition unrecognized (registryType body : string) : string :=
  "BUG: can't recognize registry type: " +:+ registryType +:+ " req body: " +:+ body.

(** DecodeRegistryBody decodes Eureka/Consul registry request body according
    to the registry type in config. *)
Definition DecodeRegistryBody (rcs : Server (W := W)) (contentType reqBody : string)
    : error * list LogCall :=
  if String.eqb (RegistryType rcs) RegistryTypeEureka then
    decodeByEurekaFormat rcs contentType reqBody
  else if String.eqb (RegistryType rcs) RegistryTypeConsul then
    decodeByConsulFormat rcs reqBody
  else (Some (unrecognized (RegistryType rcs) reqBody), []).

End Decoding.

End registrycenter.

(** ** Package storage *)
Module storage.

(** The calls that reach the cluster or the mutex handle, oldest first. *)
Inductive Call : Type :=
  | CallMutex (name : string)
  | CallGet (key : string)
  | CallGetPrefix (prefix : string)
  | CallGetRaw (key : string)
  | CallGetRawPrefix (prefix : string)
  | CallPut (key value : string)
  | CallPutUnderLease (key value : string)
  | CallPutAndDelete (kvs : gmap string (option string))
  | CallPutAndDeleteUnderLease (kvs : gmap string (option string))
  | CallDelete (key : string)
  | CallDeletePrefix (prefix : string)
  | CallSyncer (pullInterval : time.Duration)
  | CallMutexLock
  | CallMutexUnlock.

Definition is_mutex_creation (c : Call) : bool :=
  match c with CallMutex _ => true | _ => false end.

Section Storage.

(** The state of the cluster, and the two types of its API that the facade
    only passes along: [mvccpb.KeyValue] and [cluster.Syncer] (here
    [ClusterSyncer]). *)
Context {C KeyValue ClusterSyncer : Type}.

(** Modelled from the spec: package cluster is not part of the sources at
    hand.  [cluster.Mutex] is "a named distributed mutual-exclusion object
    supporting blocking Lock/Unlock"; both return an error. *)
Record Mutex : Type := mkMutex {
  mu_Lock : C -> error * C;
  mu_Unlock : C -> error * C
}.

(** Modelled from the spec: [cluster.Cluster], "single-key get, prefix get,
    put (optionally lease-bound), atomic multi-key put-and-delete batches,
    prefix delete, and a named distributed mutual-exclusion object", with
    the signatures the facade's own methods have.  A pointer result is an
    option, [None] for nil. *)
Record Cluster : Type := mkCluster {
  cls_Mutex : string -> C -> (option Mutex * error) * C;
  cls_Get : string -> C -> (option string * error) * C;
  cls_GetPrefix : string -> C -> (gmap string string * error) * C;
  cls_GetRaw : string -> C -> (option KeyValue * error) * C;
  cls_GetRawPrefix : string -> C -> (gmap string (option KeyValue) * error) * C;
  cls_Put : string -> string -> C -> error * C;
  cls_PutUnderLease : string -> string -> C -> error * C;
  cls_PutAndDelete : gmap string (option string) -> C -> error * C;
  cls_PutAndDeleteUnderLease : gmap string (option string) -> C -> error * C;
  cls_Delete : string -> C -> error * C;
  cls_DeletePrefix : string -> C -> error * C;
  cls_Syncer : time.Duration -> C -> (option ClusterSyncer * error) * C
}.

Record clusterStorage : Type := mkStorage {
  name : string;
  cls : Cluster;
  mutex : option Mutex
}.

(** Storage is the interface to contain storage APIs: a value of it is nil
    or a [*clusterStorage]. *)
Definition Storage : Type := option clusterStorage.

(** What lies outside the facade: the cluster, the calls made so far, and
    the lines handed to [logger.Errorf]. *)
Record Env : Type := mkEnv {
  cluster : C;
  calls : list Call;
  errlog : list string
}.

(** The facade object [cs] in its environment. *)
Record Heap : Type := mkHeap {
  cs : clusterStorage;
  env : Env
}.

(** A call of the cluster (or of the mutex handle): noted, then made. *)
Definition invoke {A} (c : Call) (f : C -> A * C) : Go Heap A :=
  fun h =>
    let (a, st) := f (cluster (env h)) in
    (Returned a, mkHeap (cs h) (mkEnv st (calls (env h) ++ [c]) (errlog (env h)))).

Definition set_mutex (m : option Mutex) : Go Heap unit :=
  fun h => (Returned tt, mkHeap (mkStorage (name (cs h)) (cls (cs h)) m) (env h)).

Definition logger_Errorf (line : string) : Go Heap unit :=
  fun h =>
    (Returned tt,
     mkHeap (cs h) (mkEnv (cluster (env h)) (calls (env h)) (errlog (env h) ++ [line]))).

(** [fmt.Errorf("create mutex for %s failed: %v", cs.name, err)]. *)
Definition create_failed (name err : string) : string :=
  "create mutex for " +:+ name +:+ " failed: " +:+ err.

Definition mutexGoReady : Go Heap error :=
  let* this := read cs in
  match mutex this with
  | Some _ => ret None
  | None =>
      let* r := invoke (CallMutex (name this)) (cls_Mutex (cls this) (name this)) in
      match snd r with
      | Some err => ret (Some (create_failed (name this) err))
      | None => set_mutex (fst r) ;;; ret None
      end
  end.

(** New creates a storage. *)
Definition New (name : string) (cls : Cluster) (e : Env) : Result Storage * Env :=
  let h := mkHeap (mkStorage name cls None) e in
  let c :=
    let* err := mutexGoReady in
    match err with
    | Some msg => logger_Errorf msg ;;; let* this := read cs in ret (Some this)
    | None => let* this := read cs in ret (Some this)
    end in
  let (r, h') := c h in (r, env h').

(** A method call on the mutex handle; on a nil handle it is a nil
    dereference. *)
Definition on_handle (c : Call) (f : Mutex -> C -> error * C) : Go Heap error :=
  let* this := read cs in
  match mutex this with
  | Some mu => invoke c (f mu)
  | None => panic "invalid memory address or nil pointer dereference"
  end.

Definition Lock : Go Heap error :=
  let* err := mutexGoReady in
  match err with
  | Some _ => ret err
  | None => on_handle CallMutexLock mu_Lock
  end.

Definition Unlock : Go Heap error :=
  let* err := mutexGoReady in
  match err with
  | Some _ => ret err
  | None => on_handle CallMutexUnlock mu_Unlock
  end.

Definition Get (key : string) : Go Heap (option string * error) :=
  let* this := read cs in invoke (CallGet key) (cls_Get (cls this) key).

Definition GetPrefix (prefix : string) : Go Heap (gmap string string * error) :=
  let* this := read cs in invoke (CallGetPrefix prefix) (cls_GetPrefix (cls this) prefix).

Definition Put (key value : string) : Go Heap error :=
  let* this := read cs in invoke (CallPut key value) (cls_Put (cls this) key value).

Definition PutUnderLease (key value : string) : Go Heap error :=
  let* this := read cs in
  invoke (CallPutUnderLease key value) (cls_PutUnderLease (cls this) key value).

Definition PutAndDelete (kvs : gmap string (option string)) : Go Heap error :=
  let* this := read cs in invoke (CallPutAndDelete kvs) (cls_PutAndDelete (cls this) kvs).

Definition PutAndDeleteUnderLease (kvs : gmap string (option string)) : Go Heap error :=
  let* this := read cs in
  invoke (CallPutAndDeleteUnderLease kvs) (cls_PutAndDeleteUnderLease (cls this) kvs).

Definition Delete (key : string) : Go Heap error :=
  let* this := read cs in invoke (CallDelete key) (cls_Delete (cls this) key).

Definition DeletePrefix (prefix : string) : Go Heap error :=
  let* this := read cs in invoke (CallDeletePrefix prefix) (cls_DeletePrefix (cls this) prefix).

Definition GetRaw (key : string) : Go Heap (option KeyValue * error) :=
  let* this := read cs in invoke (CallGetRaw key) (cls_GetRaw (cls this) key).

Definition GetRawPrefix (prefix : string) : Go Heap (gmap string (option KeyValue) * error) :=
  let* this := read cs in
  invoke (CallGetRawPrefix prefix) (cls_GetRawPrefix (cls this) prefix).

Definition Syncer : Go Heap (option ClusterSyncer * error) :=
  let* this := read cs in invoke (CallSyncer time.Minute) (cls_Syncer (cls this) time.Minute).

(** *** Delegation *)

(** The heap after the call [c] of the cluster moved it to the state [st]. *)
Definition after_call (c : Call) (st : C) (h : Heap) : Heap :=
  mkHeap (cs h) (mkEnv st (calls (env h) ++ [c]) (errlog (env h))).

(** What a method that only delegates the call [c] to [f] does. *)
Definition delegated {A} (c : Call) (f : C -> A * C) (h : Heap) : Result A * Heap :=
  (Returned (fst (f (cluster (env h)))), after_call c (snd (f (cluster (env h)))) h).

(** The handle is created lazily: building the facade asks the cluster for
    nothing. *)
Definition created_lazily (name : string) (cls : Cluster) (e : Env) : Prop :=
  calls (snd (New name cls e)) = calls e.

(** Every data method of the facade on [h] is the call of [cls], noted:
    same result, same effect on the cluster, nothing else touched. *)
Definition data_methods_delegate_to (cls : Cluster) (h : Heap) : Prop :=
  (forall key, Get key h = delegated (CallGet key) (cls_Get cls key) h)
  /\ (forall p, GetPrefix p h = delegated (CallGetPrefix p) (cls_GetPrefix cls p) h)
  /\ (forall key, GetRaw key h = delegated (CallGetRaw key) (cls_GetRaw cls key) h)
  /\ (forall p, GetRawPrefix p h = delegated (CallGetRawPrefix p) (cls_GetRawPrefix cls p) h)
  /\ (forall k v, Put k v h = delegated (CallPut k v) (cls_Put cls k v) h)
  /\ (forall k v, PutUnderLease k v h
                  = delegated (CallPutUnderLease k v) (cls_PutUnderLease cls k v) h)
  /\ (forall kvs, PutAndDelete kvs h
                  = delegated (CallPutAndDelete kvs) (cls_PutAndDelete cls kvs) h)
  /\ (forall kvs, PutAndDeleteUnderLease kvs h
                  = delegated (CallPutAndDeleteUnderLease kvs)
                      (cls_PutAndDeleteUnderLease cls kvs) h)
  /\ (forall key, Delete key h = delegated (CallDelete key) (cls_Delete cls key) h)
  /\ (forall p, DeletePrefix p h = delegated (CallDeletePrefix p) (cls_DeletePrefix cls p) h)
  /\ Syncer h = delegated (CallSyncer time.Minute) (cls_Syncer cls time.Minute) h.

(** *** Sequences of method calls *)

(** A call of a method of [Storage] with its arguments. *)
Inductive Method : Type :=
  | MLock
  | MUnlock
  | MGet (key : string)
  | MGetPrefix (prefix : string)
  | MGetRaw (key : string)
  | MGetRawPrefix (prefix : string)
  | MPut (key value : string)
  | MPutUnderLease (key value : string)
  | MPutAndDelete (kvs : gmap string (option string))
  | MPutAndDeleteUnderLease (kvs : gmap string (option string))
  | MDelete (key : string)
  | MDeletePrefix (prefix : string)
  | MSyncer.

Definition is_data_method (m : Method) : bool :=
  match m with MLock | MUnlock => false | _ => true end.

(** The method call, its result dropped. *)
Definition call_method (m : Method) : Go Heap unit :=
  match m with
  | MLock => let* _ := Lock in ret tt
  | MUnlock => let* _ := Unlock in ret tt
  | MGet key => let* _ := Get key in ret tt
  | MGetPrefix p => let* _ := GetPrefix p in ret tt
  | MGetRaw key => let* _ := GetRaw key in ret tt
  | MGetRawPrefix p => let* _ := GetRawPrefix p in ret tt
  | MPut k v => let* _ := Put k v in ret tt
  | MPutUnderLease k v => let* _ := PutUnderLease k v in ret tt
  | MPutAndDelete kvs => let* _ := PutAndDelete kvs in ret tt
  | MPutAndDeleteUnderLease kvs => let* _ := PutAndDeleteUnderLease kvs in ret tt
  | MDelete key => let* _ := Delete key in ret tt
  | MDeletePrefix p => let* _ := DeletePrefix p in ret tt
  | MSyncer => let* _ := Syncer in ret tt
  end.

(** The heap after the method calls [ms] in order (a caller that recovers
    from a panic goes on with the next call). *)
Fixpoint run_methods (ms : list Method) (h : Heap) : Heap :=
  match ms with
  | [] => h
  | m :: rest => run_methods rest (snd (call_method m h))
  end.

(** The call of the cluster, or of the handle, that a method ends in. *)
Definition call_of (m : Method) : Call :=
  match m with
  | MLock => CallMutexLock
  | MUnlock => CallMutexUnlock
  | MGet key => CallGet key
  | MGetPrefix p => CallGetPrefix p
  | MGetRaw key => CallGetRaw key
  | MGetRawPrefix p => CallGetRawPrefix p
  | MPut k v => CallPut k v
  | MPutUnderLease k v => CallPutUnderLease k v
  | MPutAndDelete kvs => CallPutAndDelete kvs
  | MPutAndDeleteUnderLease kvs => CallPutAndDeleteUnderLease kvs
  | MDelete key => CallDelete key
  | MDeletePrefix p => CallDeletePrefix p
  | MSyncer => CallSyncer time.Minute
  end.

End Storage.
End storage.

(** ** An in-memory world to run the code on *)
Module sample.

(** How a call of the store ends. *)
Inductive Fault : Type :=
  | NoFault
  | ReturnsError (e : string)
  | Faults (v : string).

(** The instance records of the registry by (service name, instance id),
    the wall clock, the readiness of the two sidecar halves, and the
    faults the store is about to show. *)
Record World : Type := mkWorld {
  records : gmap (string * string) spec.ServiceInstanceSpec;
  clock : time.Time;
  ingress_up : bool;
  egress_up : bool;
  get_fault : option string;
  put_fault : Fault
}.

Definition Now (w : World) : time.Time * World := (clock w, w).

Definition ingressReady : registrycenter.ReadyFunc (W := World) :=
  fun w => (Returned (ingress_up w), w).

Definition egressReady : registrycenter.ReadyFunc (W := World) :=
  fun w => (Returned (egress_up w), w).

(** A readiness function that faults. *)
Definition brokenReady : registrycenter.ReadyFunc (W := World) :=
  fun w => (Panicked "runtime error: index out of range", w).

Definition store : registrycenter.Service (W := World) :=
  registrycenter.mkStore
    (fun sn id w =>
       match get_fault w with
       | Some v => (Panicked v, w)
       | None => (Returned (records w !! (sn, id)), w)
       end)
    (fun r w =>
       match put_fault w with
       | NoFault =>
           (Returned None,
            mkWorld (<[(spec.ServiceName r, spec.InstanceID r) := r]> (records w))
              (clock w) (ingress_up w) (egress_up w) (get_fault w) (put_fault w))
       | ReturnsError e => (Returned (Some e), w)
       | Faults v => (Panicked v, w)
       end).

Definition noon : time.Time := time.mkTime 2021 3 9 12 0 0 0.

(** The instance of the end-to-end scenario: orders/i-1 at 10.0.0.5:8080. *)
Definition orders : registrycenter.Server (W := World) :=
  registrycenter.NewRegistryCenterServer "consul" "orders" "10.0.0.5" 8080 "i-1"
    {["version" := "v1"]} store.

Definition orders_spec : spec.Service := spec.mkService "tenant-a" (spec.mkSidecar 8080).

(** The record [Register] builds for [orders]. *)
Definition orders_ins : spec.ServiceInstanceSpec :=
  spec.mkInstance "orders" "i-1" "10.0.0.5" 8080 {["version" := "v1"]} "" "".

(** A record of the same instance, up since earlier, with other labels. *)
Definition orders_known : spec.ServiceInstanceSpec :=
  spec.mkInstance "orders" "i-1" "10.0.0.5" 8080 {["version" := "v0"]} "up"
    "2021-03-08T09:30:00Z".

(** A record of the same instance at its former address. *)
Definition orders_moved : spec.ServiceInstanceSpec :=
  spec.mkInstance "orders" "i-1" "10.0.0.4" 8080 {["version" := "v1"]} "up"
    "2021-03-08T09:30:00Z".

Definition empty_world : World := mkWorld ∅ noon true true None NoFault.

Definition world_with (r : spec.ServiceInstanceSpec) : World :=
  mkWorld {[(spec.ServiceName r, spec.InstanceID r) := r]} noon true true None NoFault.

(** The store is reachable for reads and faults on the next write. *)
Definition failing_put_world : World :=
  mkWorld ∅ noon true true None (Faults "etcd: request timed out").

(** The same with a write that returns its error. *)
Definition erring_put_world : World :=
  mkWorld ∅ noon true true None (ReturnsError "etcd: request timed out").

Definition failing_get_world : World :=
  mkWorld ∅ noon true true (Some "etcd: request timed out") NoFault.

Definition unready_world : World := mkWorld ∅ noon true false None NoFault.

(** The memory of the goroutine [Register] starts for [orders]. *)
Definition orders_mem (w : World) : registrycenter.Mem :=
  registrycenter.mkMem orders orders_ins 0 w [].

Definition orders_register : registrycenter.Action (W := World) :=
  registrycenter.DoRegister orders_spec ingressReady egressReady.

(** *** A cluster in memory *)

(** Keys and values, whether the mutex can be created, how many handles
    were created, and whether the distributed lock is taken. *)
Record ClusterState : Type := mkClusterState {
  kv : gmap string string;
  mutex_available : bool;
  handles : nat;
  locked : bool
}.

Definition handle : storage.Mutex (C := ClusterState) :=
  storage.mkMutex
    (fun c => (None, mkClusterState (kv c) (mutex_available c) (handles c) true))
    (fun c => (None, mkClusterState (kv c) (mutex_available c) (handles c) false)).

Definition memory_cluster : storage.Cluster (C := ClusterState) (KeyValue := string) (ClusterSyncer := unit) :=
  storage.mkCluster
    (fun _ c =>
       if mutex_available c
       then ((Some handle, None),
             mkClusterState (kv c) (mutex_available c) (S (handles c)) (locked c))
       else ((None, Some "context deadline exceeded"), c))
    (fun k c => ((kv c !! k, None), c))
    (fun p c => ((filter (fun e => String.prefix p (fst e) = true) (kv c), None), c))
    (fun k c => ((kv c !! k, None), c))
    (fun p c => ((Some <$> filter (fun e => String.prefix p (fst e) = true) (kv c), None), c))
    (fun k v c => (None, mkClusterState (<[k := v]> (kv c)) (mutex_available c) (handles c) (locked c)))
    (fun k v c => (None, mkClusterState (<[k := v]> (kv c)) (mutex_available c) (handles c) (locked c)))
    (fun _ c => (None, c))
    (fun _ c => (None, c))
    (fun k c => (None, mkClusterState (delete k (kv c)) (mutex_available c) (handles c) (locked c)))
    (fun p c => (None, mkClusterState (filter (fun e => String.prefix p (fst e) = false) (kv c))
                         (mutex_available c) (handles c) (locked c)))
    (fun _ c => ((Some tt, None), c)).

Definition healthy : ClusterState := mkClusterState {["a" := "1"]} true 0 false.

Definition partitioned : ClusterState := mkClusterState {["a" := "1"]} false 0 false.

Definition fresh_env (c : ClusterState) : storage.Env := storage.mkEnv c [] [].

(** A readiness function that says no in every world. *)
Definition neverReady : registrycenter.ReadyFunc (W := World) :=
  fun w => (Returned false, w).


(** Decoders that accept a body by its first character: "{" for JSON, "<"
    for XML. *)
Definition json_like (body : string) : error :=
  if String.prefix "{" body then None else Some "invalid character".

Definition xml_like (body : string) : error :=
  if String.prefix "<" body then None else Some "EOF".

End sample.

(** * Properties *)

(** ** The RFC 3339 rendering *)
Section TimeFacts.
Import time.

Lemma is_digit_digit (n : nat) : is_digit (digit n) = true.
Proof.
  unfold is_digit, digit.
  assert (H : (n mod 10 < 10)%nat) by (apply Nat.mod_upper_bound; lia).
  rewrite nat_ascii_embedding by lia.
  apply andb_true_intro; split; apply Nat.leb_le; lia.
Qed.

Lemma digits_fuel_digits (f n : nat) : Forall (fun c => is_digit c = true) (digits_fuel f n).
Proof.
  revert n; induction f as [|f IH]; intros n; cbn [digits_fuel]; [constructor|].
  destruct (n <? 10)%nat.
  - repeat constructor. apply is_digit_digit.
  - apply Forall_app; split; [apply IH|]. repeat constructor. apply is_digit_digit.
Qed.

Lemma digits_fuel_nonempty (f n : nat) : (1 <= length (digits_fuel (S f) n))%nat.
Proof.
  cbn [digits_fuel]. destruct (n <? 10)%nat; [cbn [length]; lia|].
  rewrite length_app; cbn [length]; lia.
Qed.

Lemma digits_fuel_length (f n k : nat) :
  (1 <= k)%nat -> (n < 10 ^ k)%nat -> (length (digits_fuel f n) <= k)%nat.
Proof.
  revert n k; induction f as [|f IH]; intros n k Hk Hn; cbn [digits_fuel length]; [lia|].
  destruct (Nat.ltb_spec n 10) as [Hlt|Hge]; [cbn [length]; lia|].
  destruct k as [|[|k]]; [lia| simpl in Hn; lia |].
  rewrite length_app; cbn [length].
  assert (length (digits_fuel f (n / 10)) <= S k)%nat; [|lia].
  apply IH; [lia|].
  apply Nat.Div0.div_lt_upper_bound.
  change (10 ^ S (S k))%nat with (10 * 10 ^ S k)%nat in Hn. lia.
Qed.

(** A non-negative number below [10 ^ width] is rendered as exactly
    [width] digits. *)
Lemma appendInt_digits (x : Z) (width : nat) :
  (1 <= width)%nat -> 0 <= x < 10 ^ Z.of_nat width ->
  Forall (fun c => is_digit c = true) (appendInt x width)
  /\ length (appendInt x width) = width.
Proof.
  intros Hw Hx. unfold appendInt.
  destruct (Z.ltb_spec x 0) as [Hneg|_]; [lia|]. simpl.
  assert (Hlen : (length (decimal (Z.abs_nat x)) <= width)%nat).
  { apply digits_fuel_length; [exact Hw|].
    apply Nat2Z.inj_lt. rewrite Zabs2Nat.id_abs, Z.abs_eq by lia.
    rewrite Nat2Z.inj_pow. simpl. lia. }
  split.
  - apply Forall_app; split; [|apply digits_fuel_digits].
    apply Forall_forall. intros c Hc. apply list_elem_of_In, repeat_spec in Hc. subst c. reflexivity.
  - rewrite length_app, repeat_length. lia.
Qed.

Lemma take_digits_app (k : nat) (ds r : list ascii) :
  Forall (fun c => is_digit c = true) ds -> length ds = k ->
  take_digits k (ds ++ r) = Some r.
Proof.
  revert ds; induction k as [|k IH]; intros ds Hd Hl.
  - destruct ds; [reflexivity|discriminate].
  - destruct ds as [|c ds]; [discriminate|].
    inversion Hd as [|? ? Hc Hds]; subst. simpl. rewrite Hc.
    apply IH; [exact Hds|]. simpl in Hl. lia.
Qed.

Lemma take_appendInt (x : Z) (width : nat) (r : list ascii) :
  (1 <= width)%nat -> 0 <= x < 10 ^ Z.of_nat width ->
  take_digits width (appendInt x width ++ r) = Some r.
Proof.
  intros Hw Hx. destruct (appendInt_digits x width Hw Hx) as [Hd Hl].
  apply take_digits_app; assumption.
Qed.

Ltac eat_separator := cbn [then_ expect]; rewrite ?Ascii.eqb_refl; cbn [then_].

Lemma zone_shape_appendZone (offset : Z) :
  -86400 < offset < 86400 -> zone_shape (appendZone offset) = true.
Proof.
  intros Ho. unfold appendZone.
  destruct (Z.eqb_spec offset 0) as [|Hnz]; [reflexivity|].
  set (zone := Z.quot offset 60).
  assert (Hz : -1440 <= zone <= 1440).
  { unfold zone. split.
    - apply Z.quot_le_lower_bound; lia.
    - apply Z.quot_le_upper_bound; lia. }
  set (az := if zone <? 0 then - zone else zone).
  assert (Haz : 0 <= az <= 1440) by (unfold az; destruct (Z.ltb_spec zone 0); lia).
  assert (Hh : 0 <= Z.quot az 60 < 10 ^ Z.of_nat 2).
  { split; [apply Z.quot_pos; lia|].
    apply Z.quot_lt_upper_bound; simpl; lia. }
  assert (Hm : 0 <= Z.rem az 60 < 10 ^ Z.of_nat 2).
  { pose proof (Z.rem_bound_pos az 60); simpl; lia. }
  assert (Hsign : forall c, c = "-"%char \/ c = "+"%char ->
            zone_shape (c :: appendInt (Z.quot az 60) 2 ++ ":"%char :: appendInt (Z.rem az 60) 2) = true).
  { intros c Hc.
    assert (Hpm : Ascii.eqb c "+"%char || Ascii.eqb c "-"%char = true)
      by (destruct Hc; subst c; reflexivity).
    assert (Hnz' : forall l, zone_shape (c :: l) =
              match then_ (then_ (take_digits 2 l) (expect ":"%char)) (take_digits 2) with
              | Some [] => true | _ => false end).
    { intros l. unfold zone_shape. rewrite Hpm.
      destruct Hc; subst c; reflexivity. }
    rewrite Hnz'.
    rewrite take_appendInt by (lia || exact Hh). eat_separator.
    rewrite <- (app_nil_r (appendInt (Z.rem az 60) 2)).
    rewrite take_appendInt by (lia || exact Hm). reflexivity. }
  destruct (zone <? 0); apply Hsign; auto.
Qed.

Lemma formatRFC3339_shape (t : Time) : civil t -> rfc3339_shape (formatRFC3339 t) = true.
Proof.
  intros (Hy & Hmo & Hd & Hh & Hmi & Hs & Ho).
  unfold rfc3339_shape, formatRFC3339.
  rewrite take_appendInt by (simpl; lia). eat_separator.
  rewrite take_appendInt by (simpl; lia). eat_separator.
  rewrite take_appendInt by (simpl; lia). eat_separator.
  rewrite take_appendInt by (simpl; lia). eat_separator.
  rewrite take_appendInt by (simpl; lia). eat_separator.
  rewrite take_appendInt by (simpl; lia).
  apply zone_shape_appendZone; exact Ho.
Qed.

(** Every civil time is rendered in the RFC 3339 shape. *)
Lemma Format_is_rfc3339 (t : Time) : civil t -> is_rfc3339 (Format t) = true.
Proof.
  intros H. unfold is_rfc3339, Format.
  rewrite list_ascii_of_string_of_list_ascii. apply formatRFC3339_shape, H.
Qed.

(** The rendering of any time at all is a non-empty string. *)
Lemma Format_nonempty (t : Time) : Format t <> "".
Proof.
  unfold Format, formatRFC3339. intros H.
  apply (f_equal String.length) in H. simpl in H.
  revert H. generalize (appendInt (year t) 4). intros l.
  destruct l; simpl; discriminate.
Qed.

End TimeFacts.

(** ** The registry center *)
Section RegistryFacts.
Import registrycenter.

Context {W : Type} (Now : W -> time.Time * W).

Abbreviation Mem := (Mem (W := W)).
Abbreviation System := (System (W := W)).
Abbreviation ReadyFunc := (ReadyFunc (W := W)).
Abbreviation Task := (Task (W := W)).
Abbreviation Action := (Action (W := W)).
Abbreviation Server := (Server (W := W)).
Abbreviation keeps := (keeps (W := W)).
Abbreviation blind := (blind (W := W)).

Lemma frame_refl (m : Mem) : frame m m.
Proof.
  split; [exists []; split; [symmetry; apply app_nil_r | reflexivity] | left; reflexivity].
Qed.

Lemma frame_trans (m1 m2 m3 : Mem) : frame m1 m2 -> frame m2 m3 -> frame m1 m3.
Proof.
  intros [(n1 & E1 & F1) R1] [(n2 & E2 & F2) R2]. split.
  - exists (n1 ++ n2). split.
    + rewrite E2, E1, app_assoc. reflexivity.
    + rewrite forallb_app, F1, F2. reflexivity.
  - destruct R1 as [R1|R1], R2 as [R2|R2]; rewrite R2, R1; auto.
Qed.

Lemma keeps_ret {A} (a : A) : keeps (ret a).
Proof. intros m. apply frame_refl. Qed.

Lemma keeps_panic {A} (v : string) : keeps (panic (A := A) v).
Proof. intros m. apply frame_refl. Qed.

Lemma keeps_read {A} (f : Mem -> A) : keeps (read f).
Proof. intros m. apply frame_refl. Qed.

Lemma keeps_bind {A B} (c : M A) (k : A -> M B) :
  keeps c -> (forall a, keeps (k a)) -> keeps (bind c k).
Proof.
  intros Hc Hk m. unfold bind. specialize (Hc m).
  destruct (c m) as [[a|v] m1]; simpl in *; [|exact Hc].
  eapply frame_trans; [exact Hc | apply Hk].
Qed.

Lemma keeps_emit (e : Event) : is_attempt_event e = true -> keeps (emit e).
Proof.
  intros He m. split; [|left; reflexivity].
  exists [e]. simpl. rewrite He. split; reflexivity.
Qed.

Lemma keeps_call {A} (f : Ext A) : keeps (call f).
Proof.
  intros m. unfold call. destruct (f (world m)) as [r w].
  split; [exists []; split; [symmetry; apply app_nil_r | reflexivity] | left; reflexivity].
Qed.

Lemma keeps_now : keeps (now Now).
Proof.
  intros m. unfold now. destruct (Now (world m)) as [t w].
  split; [exists []; split; [symmetry; apply app_nil_r | reflexivity] | left; reflexivity].
Qed.

Lemma keeps_update_ins f : keeps (update_ins (W := W) f).
Proof.
  intros m.
  split; [exists []; split; [symmetry; apply app_nil_r | reflexivity] | left; reflexivity].
Qed.

Lemma keeps_update_tryTimes f : keeps (update_tryTimes (W := W) f).
Proof.
  intros m.
  split; [exists []; split; [symmetry; apply app_nil_r | reflexivity] | left; reflexivity].
Qed.

Lemma keeps_set_registered : keeps (update_rcs (W := W) (set_registered true)).
Proof.
  intros m.
  split; [exists []; split; [symmetry; apply app_nil_r | reflexivity] | right; reflexivity].
Qed.

Lemma keeps_defer_recover (h : string -> M unit) (body : M unit) :
  (forall v, keeps (h v)) -> keeps body -> keeps (defer_recover h body).
Proof.
  intros Hh Hb m. unfold defer_recover. specialize (Hb m).
  destruct (body m) as [[[]|v] m1]; simpl in *; [exact Hb|].
  eapply frame_trans; [exact Hb | apply Hh].
Qed.

Create HintDb keeps.
#[local] Hint Resolve keeps_ret keeps_panic keeps_read keeps_call keeps_now
  keeps_update_ins keeps_update_tryTimes keeps_set_registered : keeps.

Ltac keeps_tac :=
  repeat first
    [ apply keeps_bind; [|intros ?]
    | apply keeps_emit; reflexivity
    | solve [auto with keeps]
    | match goal with |- keeps (if ?b then _ else _) => destruct b end
    | match goal with |- keeps (match ?o with Some _ => _ | None => _ end) => destruct o end ].

Lemma keeps_service_Get sn id : keeps (service_Get (W := W) sn id).
Proof. unfold service_Get. keeps_tac. Qed.

Lemma keeps_service_Put : keeps (service_Put (W := W)).
Proof. unfold service_Put. keeps_tac. Qed.

Lemma keeps_not_ready (ingress egress : ReadyFunc) : keeps (not_ready ingress egress).
Proof. unfold not_ready. keeps_tac. Qed.

Lemma keeps_attempt (ingress egress : ReadyFunc) : keeps (attempt Now ingress egress).
Proof.
  pose proof keeps_service_Get. pose proof keeps_service_Put.
  pose proof keeps_not_ready.
  unfold attempt. keeps_tac.
Qed.

Lemma keeps_routine (ingress egress : ReadyFunc) : keeps (routine Now ingress egress).
Proof.
  unfold routine. apply keeps_defer_recover.
  - intros v. apply keeps_emit. reflexivity.
  - apply keeps_attempt.
Qed.

(** The closure [routine] always returns: a panic of the attempt stops at
    its [recover]. *)
Lemma routine_returns (ingress egress : ReadyFunc) (m : Mem) :
  fst (routine Now ingress egress m) = Returned tt.
Proof.
  unfold routine, defer_recover.
  destruct (attempt Now ingress egress m) as [[[]|v] m1]; reflexivity.
Qed.

Lemma locked_pass_registered (ingress egress : ReadyFunc) (m : Mem) :
  registered (rcs m) = true ->
  locked_pass Now ingress egress m =
    (Returned false,
     mkMem (set_mutex false (rcs m)) (ins m) (tryTimes m) (world m)
       (events m ++ [EvLock; EvUnlock])).
Proof.
  intros Hr. unfold locked_pass, mutex_Lock, mutex_Unlock, bind, emit, update_rcs, read, ret.
  cbn. rewrite Hr. cbn. rewrite <- app_assoc. reflexivity.
Qed.

Lemma locked_pass_attempt (ingress egress : ReadyFunc) (m : Mem) :
  registered (rcs m) = false ->
  exists m2,
    routine Now ingress egress (locked m) = (Returned tt, m2)
    /\ frame (locked m) m2
    /\ locked_pass Now ingress egress m = (Returned true, unlocked_after_sleep m2).
Proof.
  intros Hr.
  pose proof (routine_returns ingress egress (locked m)) as Hret.
  pose proof (keeps_routine ingress egress (locked m)) as Hfr.
  destruct (routine Now ingress egress (locked m)) as [r m2] eqn:E.
  simpl in Hret, Hfr. subst r. exists m2. split; [reflexivity|]. split; [exact Hfr|].
  assert (Hmu : mutex (rcs m2) = true).
  { destruct Hfr as [_ [R|R]]; rewrite R; reflexivity. }
  unfold locked_pass, mutex_Lock, bind at 1 2 3. cbn.
  rewrite Hr. unfold bind at 1. fold (locked m). rewrite E.
  unfold Sleep, mutex_Unlock, bind, emit, update_rcs, read, ret. cbn.
  rewrite Hmu. cbn. unfold unlocked_after_sleep. rewrite <- app_assoc. reflexivity.
Qed.

#[local] Arguments needUpdateRecord : simpl never.

Ltac destruct_put :=
  match goal with
  | |- context [PutServiceInstanceSpec ?s ?r ?w] =>
      destruct (PutServiceInstanceSpec s r w) as [[?|?] ?]
  end.

(** C1. One attempt with both readiness gates returning true, the store
    answering the read with [o]:
    - [registered] is true afterwards in every case;
    - if the record is absent ([o = None]) or differs from the desired
      record in IP or Port, the attempt issues exactly one store write, of
      a record that carries the desired IP and Port, Status "up" and as
      RegistryTime the non-empty RFC 3339 rendering of the clock;
    - if the record agrees in IP and Port (whatever its labels), no write
      is issued. *)
Theorem C1_attempt_writes_only_on_drift
    (ingress egress : ReadyFunc) (m : Mem) (w2 w3 : W)
    (o : option spec.ServiceInstanceSpec) :
  gates_pass ingress egress (world m) w2 ->
  GetServiceInstanceSpec (service (rcs m)) (serviceName (rcs m)) (instanceID (rcs m)) w2
    = (Returned o, w3) ->
  let m' := snd (routine Now ingress egress m) in
  exists new,
    events m' = events m ++ new
    /\ registered (rcs m') = true
    /\ ((o = None \/
         exists r, o = Some r /\
           (spec.IP r <> spec.IP (ins m) \/ spec.Port r <> spec.Port (ins m))) ->
        exists r,
          written new = [r]
          /\ spec.IP r = spec.IP (ins m) /\ spec.Port r = spec.Port (ins m)
          /\ spec.Status r = "up"
          /\ spec.RegistryTime r = time.Format (fst (Now w3))
          /\ spec.RegistryTime r <> ""
          /\ (time.civil (fst (Now w3)) -> time.is_rfc3339 (spec.RegistryTime r) = true))
    /\ ((exists r, o = Some r /\
           spec.IP r = spec.IP (ins m) /\ spec.Port r = spec.Port (ins m)) ->
        written new = []).
Proof.
  intros (w1 & Hi & He) Hget m'. subst m'.
  unfold routine, defer_recover, attempt, not_ready, service_Get, service_Put.
  unfold bind, call, read, ret, emit, update_tryTimes, update_rcs, update_ins, now. cbn.
  rewrite Hi. cbn. rewrite He. cbn. rewrite Hget. cbn.
  destruct o as [r|].
  - cbn. destruct (needUpdateRecord (Some r) (ins m)) eqn:Hneed; cbn.
    + destruct (Now w3) as [t w4] eqn:Hnow. cbn.
      destruct_put; cbn;
        eexists; (split; [rewrite <- !app_assoc; reflexivity|]);
        (split; [reflexivity|]); (split; [|intros (r' & Hr' & Hip & Hport)]).
      all: try (intros _; eexists; split; [reflexivity|]; cbn;
                repeat split; auto using Format_nonempty, Format_is_rfc3339).
      all: exfalso; injection Hr' as <-; unfold needUpdateRecord in Hneed;
        rewrite Hip, Hport, String.eqb_refl, Z.eqb_refl in Hneed; discriminate.
    + eexists. split; [rewrite <- !app_assoc; reflexivity|]. split; [reflexivity|].
      split; [|intros _; reflexivity].
      intros [Hn | (r' & Hr' & Hdiff)]; [discriminate|].
      exfalso. injection Hr' as <-. unfold needUpdateRecord in Hneed.
      destruct Hdiff as [Hd|Hd].
      * apply String.eqb_neq in Hd. rewrite Hd in Hneed. discriminate.
      * apply Z.eqb_neq in Hd. rewrite Hd, orb_true_r in Hneed. discriminate.
  - cbn. destruct (Now w3) as [t w4] eqn:Hnow. cbn.
    destruct_put; cbn;
      eexists; (split; [rewrite <- !app_assoc; reflexivity|]);
      (split; [reflexivity|]); (split; [|intros (r' & Hr' & _); discriminate]).
    all: intros _; eexists; split; [reflexivity|]; cbn;
      repeat split; auto using Format_nonempty, Format_is_rfc3339.
Qed.

(** *** The process *)

Lemma set_mutex_same (r : Server) (b : bool) : mutex r = b -> set_mutex b r = r.
Proof. destruct r; simpl; intros <-; reflexivity. Qed.

Lemma run_task_exited (t : Task) (s : System) (why : Exit) :
  pc t = Exited why -> run_task Now t s = (Returned tt, (t, s)).
Proof. intros H. unfold run_task. rewrite H. reflexivity. Qed.

Lemma run_task_select (t : Task) (s : System) :
  pc t = AtSelect ->
  run_task Now t s =
    (Returned tt, (with_pc (if done (server s) then Exited Cancelled else AtLock) t, s)).
Proof. intros H. unfold run_task. rewrite H. destruct (done (server s)); reflexivity. Qed.

Lemma run_task_registered (t : Task) (s : System) :
  pc t = AtLock -> mutex (server s) = false -> registered (server s) = true ->
  run_task Now t s =
    (Returned tt,
     (with_pc (Exited AlreadyRegistered) t,
      mkSystem (server s) (tasks s) (sys_world s) (trace s ++ [EvLock; EvUnlock]))).
Proof.
  intros Hpc Hmu Hreg. unfold run_task. rewrite Hpc, Hmu.
  fold (mem_of t s). rewrite locked_pass_registered by exact Hreg. cbn.
  rewrite set_mutex_same by exact Hmu. reflexivity.
Qed.

Lemma run_task_attempt (t : Task) (s : System) :
  pc t = AtLock -> mutex (server s) = false -> registered (server s) = false ->
  exists m2,
    routine Now (ingressReady t) (egressReady t) (locked (mem_of t s)) = (Returned tt, m2)
    /\ frame (locked (mem_of t s)) m2
    /\ run_task Now t s =
         (Returned tt,
          (mkTask AtSelect (ins m2) (tryTimes m2) (ingressReady t) (egressReady t),
           mkSystem (set_mutex false (rcs m2)) (tasks s) (world m2)
             (events m2 ++ [EvSleep (1 * time.Second); EvUnlock]))).
Proof.
  intros Hpc Hmu Hreg.
  destruct (locked_pass_attempt (ingressReady t) (egressReady t) (mem_of t s) Hreg)
    as (m2 & Hrun & Hfr & Hpass).
  exists m2. split; [exact Hrun|]. split; [exact Hfr|].
  unfold run_task. rewrite Hpc, Hmu. fold (mem_of t s). rewrite Hpass. reflexivity.
Qed.

(** A goroutine never reaches the top with a panic, and the lock is free
    again after each of its steps. *)
Lemma run_task_safe (t : Task) (s : System) :
  mutex (server s) = false ->
  fst (run_task Now t s) = Returned tt
  /\ mutex (server (snd (snd (run_task Now t s)))) = false
  /\ tasks (snd (snd (run_task Now t s))) = tasks s
  /\ done (server (snd (snd (run_task Now t s)))) = done (server s)
  /\ (registered (server s) = true ->
      registered (server (snd (snd (run_task Now t s)))) = true).
Proof.
  intros Hmu. destruct (pc t) as [| |why] eqn:Hpc.
  - rewrite run_task_select by exact Hpc. cbn. auto.
  - destruct (registered (server s)) eqn:Hreg.
    + rewrite run_task_registered by assumption. cbn. auto.
    + destruct (run_task_attempt t s Hpc Hmu Hreg) as (m2 & _ & [_ Hrcs] & ->). cbn.
      repeat split; try discriminate.
      destruct Hrcs as [->| ->]; reflexivity.
  - rewrite (run_task_exited t s why) by exact Hpc. cbn. auto.
Qed.

Lemma step_safe (a : Action) (s : System) :
  mutex (server s) = false ->
  mutex (server (snd (step Now a s))) = false
  /\ (registered (server s) = true -> registered (server (snd (step Now a s))) = true)
  /\ (done (server s) = true -> done (server (snd (step Now a s))) = true)
  /\ (a <> DoClose -> fst (step Now a s) = Returned tt).
Proof.
  intros Hmu. destruct a as [sp ing eg| |i]; cbn.
  - unfold Register, Registered. cbn.
    destruct (registered (server s)) eqn:E; cbn; intuition congruence.
  - unfold Close. destruct (done (server s)) eqn:E; cbn; intuition congruence.
  - destruct (tasks s !! i) as [t|]; [|cbn; auto].
    pose proof (run_task_safe t s Hmu) as (Hret & Hm & _ & Hd & Hr).
    destruct (run_task Now t s) as [r [t' s']]. cbn in *.
    rewrite Hd. auto.
Qed.

Lemma reachable_mutex_free (s : System) : reachable Now s -> mutex (server s) = false.
Proof.
  induction 1 as [| a s _ IH]; [reflexivity|].
  apply step_safe, IH.
Qed.

Lemma falls_none_rises_once (prev : bool) (l : list bool) :
  falls prev l = O -> (rises prev l <= 1)%nat /\ (prev = true -> rises prev l = O).
Proof.
  revert prev; induction l as [|b l IH]; intros prev H; cbn in *; [auto|].
  destruct prev, b; cbn in *; try discriminate;
    destruct (IH _ H) as [H1 H2]; split; intros; try discriminate; auto.
  rewrite H2 by reflexivity. lia.
Qed.

Lemma flag_history_never_falls (acts : list Action) (s : System) :
  mutex (server s) = false ->
  falls (registered (server s)) (flag_history Now acts s) = O.
Proof.
  revert s; induction acts as [|a acts IH]; intros s Hmu; cbn; [reflexivity|].
  destruct (step_safe a s Hmu) as (Hm & Hr & _).
  rewrite IH by exact Hm.
  destruct (registered (server s)); [rewrite Hr by reflexivity|]; reflexivity.
Qed.

Lemma step_run (i : nat) (t : Task) (s : System) :
  tasks s !! i = Some t ->
  step Now (DoRun i) s =
    (fst (run_task Now t s),
     mkSystem (server (snd (snd (run_task Now t s))))
       (<[i := fst (snd (run_task Now t s))]> (tasks (snd (snd (run_task Now t s)))))
       (sys_world (snd (snd (run_task Now t s))))
       (trace (snd (snd (run_task Now t s))))).
Proof.
  intros H. cbn. rewrite H. destruct (run_task Now t s) as [r [t' s']]. reflexivity.
Qed.

Lemma lookup_updated (i : nat) (t t' : Task) (l : list Task) :
  l !! i = Some t -> <[i := t']> l !! i = Some t'.
Proof. intros H. apply list_lookup_insert_eq. eapply lookup_lt_Some, H. Qed.

(** A goroutine that finds [registered] set when it is next scheduled
    returns within one iteration without touching the store. *)
Lemma iteration_when_registered (s : System) (i : nat) (t : Task) :
  mutex (server s) = false -> registered (server s) = true ->
  tasks s !! i = Some t -> is_live t = true ->
  exists s' why new,
    iteration Now i s = (Returned tt, s')
    /\ pc <$> (tasks s' !! i) = Some (Exited why)
    /\ server s' = server s
    /\ sys_world s' = sys_world s
    /\ trace s' = trace s ++ new
    /\ no_store_access new = true.
Proof.
  intros Hmu Hreg Ht Hlive. unfold iteration, exec.
  destruct (pc t) as [| |why] eqn:Hpc; [| |unfold is_live in Hlive; rewrite Hpc in Hlive; discriminate].
  - (* at the select *)
    rewrite (step_run i t s Ht), run_task_select by exact Hpc. cbn [fst snd].
    destruct (done (server s)) eqn:Hdone.
    + (* cancelled: the second step finds the goroutine returned *)
      set (s1 := mkSystem _ _ _ _).
      assert (H1 : tasks s1 !! i = Some (with_pc (Exited Cancelled) t))
        by (apply (lookup_updated i t), Ht).
      rewrite (step_run i _ s1 H1), (run_task_exited _ s1 Cancelled) by reflexivity.
      cbn [fst snd]. eexists _, Cancelled, []. split; [reflexivity|]. cbn.
      rewrite (lookup_updated i (with_pc (Exited Cancelled) t)) by exact H1.
      rewrite app_nil_r. repeat split.
    + set (s1 := mkSystem _ _ _ _).
      assert (H1 : tasks s1 !! i = Some (with_pc AtLock t))
        by (apply (lookup_updated i t), Ht).
      rewrite (step_run i _ s1 H1), run_task_registered by (reflexivity || assumption).
      cbn [fst snd]. eexists _, AlreadyRegistered, [EvLock; EvUnlock].
      split; [reflexivity|]. cbn.
      rewrite (lookup_updated i (with_pc AtLock t)) by exact H1. repeat split.
  - (* in front of the lock *)
    rewrite (step_run i t s Ht), run_task_registered by assumption. cbn [fst snd].
    set (s1 := mkSystem _ _ _ _).
    assert (H1 : tasks s1 !! i = Some (with_pc (Exited AlreadyRegistered) t))
      by (apply (lookup_updated i t), Ht).
    rewrite (step_run i _ s1 H1), (run_task_exited _ s1 AlreadyRegistered) by reflexivity.
    cbn [fst snd]. eexists _, AlreadyRegistered, [EvLock; EvUnlock].
    split; [reflexivity|]. cbn.
    rewrite (lookup_updated i (with_pc (Exited AlreadyRegistered) t)) by exact H1.
    repeat split.
Qed.

(** *** The loop of [register] *)

Lemma loop_body_cancelled (ingress egress : ReadyFunc) (m : Mem) :
  done (rcs m) = true ->
  loop_body Now ingress egress m = (Returned (Some Cancelled), m).
Proof. intros H. unfold loop_body, bind, read. cbn. rewrite H. reflexivity. Qed.

Lemma loop_body_registered (ingress egress : ReadyFunc) (m : Mem) :
  done (rcs m) = false -> registered (rcs m) = true ->
  loop_body Now ingress egress m =
    (Returned (Some AlreadyRegistered),
     mkMem (set_mutex false (rcs m)) (ins m) (tryTimes m) (world m)
       (events m ++ [EvLock; EvUnlock])).
Proof.
  intros Hd Hr. unfold loop_body, bind at 1, read. cbn. rewrite Hd.
  unfold bind. rewrite locked_pass_registered by exact Hr. reflexivity.
Qed.

Lemma loop_body_attempt (ingress egress : ReadyFunc) (m : Mem) :
  done (rcs m) = false -> registered (rcs m) = false ->
  exists m2,
    routine Now ingress egress (locked m) = (Returned tt, m2)
    /\ frame (locked m) m2
    /\ loop_body Now ingress egress m = (Returned None, unlocked_after_sleep m2).
Proof.
  intros Hd Hr.
  destruct (locked_pass_attempt ingress egress m Hr) as (m2 & Hrun & Hfr & Hpass).
  exists m2. split; [exact Hrun|]. split; [exact Hfr|].
  unfold loop_body, bind at 1, read. cbn. rewrite Hd.
  unfold bind. rewrite Hpass. reflexivity.
Qed.

(** The loop has two exits only, and an iteration that ran an attempt
    goes round again whatever the attempt did. *)
Lemma register_unfold (fuel : nat) (ingress egress : ReadyFunc) (m : Mem) :
  (done (rcs m) = true ->
   register Now (S fuel) ingress egress m = (Returned (Some Cancelled), m))
  /\ (done (rcs m) = false -> registered (rcs m) = true ->
      register Now (S fuel) ingress egress m =
        (Returned (Some AlreadyRegistered),
         mkMem (set_mutex false (rcs m)) (ins m) (tryTimes m) (world m)
           (events m ++ [EvLock; EvUnlock])))
  /\ (done (rcs m) = false -> registered (rcs m) = false ->
      exists m2,
        routine Now ingress egress (locked m) = (Returned tt, m2)
        /\ register Now (S fuel) ingress egress m
           = register Now fuel ingress egress (unlocked_after_sleep m2)).
Proof.
  split; [|split].
  - intros Hd. cbn [register]. unfold bind.
    rewrite loop_body_cancelled by exact Hd. reflexivity.
  - intros Hd Hr. cbn [register]. unfold bind.
    rewrite loop_body_registered by assumption. reflexivity.
  - intros Hd Hr. destruct (loop_body_attempt ingress egress m Hd Hr) as (m2 & Hrun & _ & Hb).
    exists m2. split; [exact Hrun|]. cbn [register]. unfold bind at 1. rewrite Hb. reflexivity.
Qed.

(** Two steps of a goroutine that stands at the [select] are one turn of
    the loop of [register] on the memory the goroutine sees. *)
Lemma iteration_is_loop_body (s : System) (i : nat) (t : Task) :
  mutex (server s) = false -> tasks s !! i = Some t -> pc t = AtSelect ->
  exists r m',
    loop_body Now (ingressReady t) (egressReady t) (mem_of t s) = (Returned r, m')
    /\ iteration Now i s =
         (Returned tt,
          mkSystem (rcs m')
            (<[i := mkTask (match r with Some e => Exited e | None => AtSelect end)
                      (ins m') (tryTimes m') (ingressReady t) (egressReady t)]> (tasks s))
            (world m') (events m')).
Proof.
  intros Hmu Ht Hpc. unfold iteration, exec.
  rewrite (step_run i t s Ht), run_task_select by exact Hpc. cbn [fst snd].
  destruct (done (server s)) eqn:Hd.
  - exists (Some Cancelled), (mem_of t s).
    split; [apply loop_body_cancelled; exact Hd|].
    set (s1 := mkSystem _ _ _ _).
    assert (H1 : tasks s1 !! i = Some (with_pc (Exited Cancelled) t))
      by (apply (lookup_updated i t), Ht).
    rewrite (step_run i _ s1 H1), (run_task_exited _ s1 Cancelled) by reflexivity.
    cbn. rewrite list_insert_insert_eq. reflexivity.
  - set (s1 := mkSystem _ _ _ _).
    assert (H1 : tasks s1 !! i = Some (with_pc AtLock t))
      by (apply (lookup_updated i t), Ht).
    rewrite (step_run i _ s1 H1).
    destruct (registered (server s)) eqn:Hreg.
    + eexists _, _. split; [apply loop_body_registered; assumption|].
      rewrite run_task_registered by (reflexivity || assumption).
      cbn. rewrite list_insert_insert_eq, set_mutex_same by exact Hmu. reflexivity.
    + destruct (loop_body_attempt (ingressReady t) (egressReady t) (mem_of t s) Hd Hreg)
        as (m2 & Hrun & Hfr & Hb).
      eexists _, _. split; [exact Hb|].
      destruct (run_task_attempt (with_pc AtLock t) s1 eq_refl Hmu Hreg)
        as (m2' & Hrun' & _ & ->).
      change (routine Now (ingressReady t) (egressReady t) (locked (mem_of t s))
              = (Returned tt, m2')) in Hrun'.
      rewrite Hrun in Hrun'. injection Hrun' as <-.
      cbn. rewrite list_insert_insert_eq. reflexivity.
Qed.

(** Once [registered] is set, no step reads or writes the store. *)
Lemma step_quiet (a : Action) (s : System) :
  mutex (server s) = false -> registered (server s) = true ->
  exists new,
    trace (snd (step Now a s)) = trace s ++ new
    /\ no_store_access new = true
    /\ sys_world (snd (step Now a s)) = sys_world s.
Proof.
  intros Hmu Hreg. destruct a as [sp ing eg| |i].
  - exists []. cbn. unfold Register, Registered. cbn. rewrite Hreg. cbn.
    rewrite app_nil_r. auto.
  - exists []. cbn. unfold Close. destruct (done (server s)); cbn; rewrite app_nil_r; auto.
  - destruct (tasks s !! i) as [t|] eqn:Ht; [|exists []; cbn; rewrite Ht, app_nil_r; auto].
    rewrite (step_run i t s Ht).
    destruct (pc t) as [| |why] eqn:Hpc.
    + rewrite run_task_select by exact Hpc. exists []. cbn. rewrite app_nil_r. auto.
    + rewrite run_task_registered by assumption. exists [EvLock; EvUnlock]. cbn. auto.
    + rewrite (run_task_exited t s why) by exact Hpc. exists []. cbn.
      rewrite app_nil_r. auto.
Qed.

Lemma exec_quiet (acts : list Action) (s : System) :
  mutex (server s) = false -> registered (server s) = true ->
  exists new,
    trace (snd (exec Now acts s)) = trace s ++ new
    /\ no_store_access new = true
    /\ sys_world (snd (exec Now acts s)) = sys_world s.
Proof.
  revert s; induction acts as [|a acts IH]; intros s Hmu Hreg.
  - exists []. cbn. rewrite app_nil_r. auto.
  - destruct (step_quiet a s Hmu Hreg) as (n1 & Htr & Hno & Hw).
    destruct (step_safe a s Hmu) as (Hmu' & Hreg' & _).
    cbn. destruct (step Now a s) as [[[]|v] s1]; cbn in *.
    + destruct (IH s1 Hmu' (Hreg' Hreg)) as (n2 & Htr2 & Hno2 & Hw2).
      exists (n1 ++ n2). rewrite Htr2, Htr, Hw2, Hw, <- app_assoc.
      unfold no_store_access in *. rewrite forallb_app, Hno, Hno2. auto.
    + exists n1. auto.
Qed.

(** C2. [registered] is monotonic in the life of a server: in every
    reachable state
    - no action of the owner or step of a goroutine resets it from true to
      false;
    - along any further run it never falls and rises at most once;
    - once it is true, no further run reads or writes the store;
    - once it is true, a goroutine of [register] that is still alive
      returns within its next iteration: the loop of [register] ends in its
      first turn. *)
Theorem C2_registered_is_monotonic (s : System) (acts : list Action) :
  reachable Now s ->
  (forall a, registered (server s) = true ->
             registered (server (snd (step Now a s))) = true)
  /\ falls (registered (server s)) (flag_history Now acts s) = O
  /\ (rises (registered (server s)) (flag_history Now acts s) <= 1)%nat
  /\ (registered (server s) = true ->
      exists new,
        trace (snd (exec Now acts s)) = trace s ++ new
        /\ no_store_access new = true
        /\ sys_world (snd (exec Now acts s)) = sys_world s)
  /\ (registered (server s) = true ->
      forall i t, tasks s !! i = Some t -> is_live t = true ->
      exists s' why new,
        iteration Now i s = (Returned tt, s')
        /\ pc <$> (tasks s' !! i) = Some (Exited why)
        /\ registered (server s') = true
        /\ sys_world s' = sys_world s
        /\ trace s' = trace s ++ new
        /\ no_store_access new = true
        /\ forall fuel,
             exists e, fst (register Now (S fuel) (ingressReady t) (egressReady t) (mem_of t s))
                       = Returned (Some e)).
Proof.
  intros Hreach. pose proof (reachable_mutex_free s Hreach) as Hmu.
  pose proof (flag_history_never_falls acts s Hmu) as Hfalls.
  split; [intros a; apply step_safe, Hmu|].
  split; [exact Hfalls|].
  split; [apply falls_none_rises_once, Hfalls|].
  split; [intros Hreg; apply exec_quiet; assumption|].
  intros Hreg i t Ht Hlive.
  destruct (iteration_when_registered s i t Hmu Hreg Ht Hlive)
    as (s' & why & new & Hit & Hpc & Hsrv & Hw & Htr & Hno).
  exists s', why, new. rewrite Hsrv. repeat (split; [assumption|]).
  intros fuel.
  destruct (register_unfold fuel (ingressReady t) (egressReady t) (mem_of t s))
    as (Hc & Hr & _).
  destruct (done (server s)) eqn:Hd.
  - exists Cancelled. rewrite Hc by exact Hd. reflexivity.
  - exists AlreadyRegistered. rewrite Hr by assumption. reflexivity.
Qed.

Lemma Register_effect (serviceSpec : spec.Service) (ingress egress : ReadyFunc) (s : System) :
  registered (server s) = false ->
  registered (server (Register serviceSpec ingress egress s)) = false
  /\ tasks (Register serviceSpec ingress egress s)
     = tasks s ++ [mkTask AtSelect (desired (server s) serviceSpec) 0 ingress egress]
  /\ live_tasks (Register serviceSpec ingress egress s) = S (live_tasks s).
Proof.
  intros Hreg. unfold Register, Registered, live_tasks. cbn. rewrite Hreg. cbn.
  repeat split; [exact Hreg|]. rewrite List.filter_app, length_app. cbn. lia.
Qed.

Lemma registers_add_tasks (acts : list Action) (s : System) :
  forallb is_register acts = true -> registered (server s) = false ->
  registered (server (snd (exec Now acts s))) = false
  /\ live_tasks (snd (exec Now acts s)) = (live_tasks s + length acts)%nat.
Proof.
  revert s; induction acts as [|a acts IH]; intros s Hall Hreg; cbn in *.
  - split; [exact Hreg | lia].
  - apply andb_true_iff in Hall as [Ha Hall].
    destruct a as [sp ing eg| |i]; try discriminate. cbn.
    destruct (Register_effect sp ing eg s Hreg) as (Hreg' & _ & Hlive).
    destruct (IH _ Hall Hreg') as (H1 & H2). split; [exact H1|]. rewrite H2, Hlive. lia.
Qed.

(** C3, as the code has it.  [Register] records the tenant in every case
    and touches neither the world nor the trace.  When [registered] is
    already true it does nothing else: no goroutine is started.  When
    [registered] is false it starts one more goroutine of [register], on
    top of its loop and with the desired record, next to the ones that
    exist; so a sequence of calls made before registration has succeeded
    starts as many goroutines as there are calls. *)
Theorem C3_register_starts_a_task_per_call
    (serviceSpec : spec.Service) (ingress egress : ReadyFunc) (s : System) :
  server (Register serviceSpec ingress egress s)
    = set_tenant (spec.RegisterTenant serviceSpec) (server s)
  /\ sys_world (Register serviceSpec ingress egress s) = sys_world s
  /\ trace (Register serviceSpec ingress egress s) = trace s
  /\ (if registered (server s)
      then tasks (Register serviceSpec ingress egress s) = tasks s
      else tasks (Register serviceSpec ingress egress s)
             = tasks s ++ [mkTask AtSelect (desired (server s) serviceSpec) 0 ingress egress]
           /\ live_tasks (Register serviceSpec ingress egress s) = S (live_tasks s)
           /\ forall calls,
                forallb is_register calls = true ->
                live_tasks (snd (exec Now calls s)) = (live_tasks s + length calls)%nat).
Proof.
  destruct (registered (server s)) eqn:Hreg.
  - unfold Register, Registered. cbn. rewrite Hreg. cbn. repeat split.
  - destruct (Register_effect serviceSpec ingress egress s Hreg) as (_ & Ht & Hl).
    split; [|split; [|split; [|split; [exact Ht|split; [exact Hl|]]]]].
    + unfold Register, Registered. cbn. rewrite Hreg. reflexivity.
    + unfold Register, Registered. cbn. rewrite Hreg. reflexivity.
    + unfold Register, Registered. cbn. rewrite Hreg. reflexivity.
    + intros calls Hall. apply registers_add_tasks; assumption.
Qed.

(** C4. Gate-blocking: when a readiness function returns false in the
    condition of an attempt, the attempt ends normally, the server is
    unchanged (so [registered] is still false), the record of the goroutine
    is unchanged, and none of its events is a read or a write of the store. *)
Theorem C4_gate_blocking (ingress egress : ReadyFunc) (m : Mem) :
  gate_blocks ingress egress (world m) ->
  exists m' new,
    routine Now ingress egress m = (Returned tt, m')
    /\ rcs m' = rcs m
    /\ (registered (rcs m) = false -> registered (rcs m') = false)
    /\ ins m' = ins m
    /\ events m' = events m ++ new
    /\ no_store_access new = true.
Proof.
  intros Hblock.
  assert (Hcore : exists m' new,
    routine Now ingress egress m = (Returned tt, m')
    /\ rcs m' = rcs m /\ ins m' = ins m
    /\ events m' = events m ++ new /\ no_store_access new = true).
  { unfold routine, defer_recover, attempt, not_ready.
    unfold bind, call, read, ret, emit, update_tryTimes. cbn.
    destruct Hblock as [(w1 & Hi) | (w1 & w2 & Hi & He)].
    - rewrite Hi. cbn.
      destruct (ingress w1) as [[i2|v] w3]; cbn;
        [destruct (egress w3) as [[e2|v] w4]; cbn|];
        eexists _, [_]; repeat split.
    - rewrite Hi. cbn. rewrite He. cbn.
      destruct (ingress w2) as [[i2|v] w3]; cbn;
        [destruct (egress w3) as [[e2|v] w4]; cbn|];
        eexists _, [_]; repeat split. }
  destruct Hcore as (m' & new & Hrun & Hrcs & Hins & Hev & Hno).
  exists m', new. rewrite Hrcs. auto 10.
Qed.

Lemma sleeps_holding_attempt (new rest : list Event) (held : bool) :
  forallb is_attempt_event new = true ->
  sleeps_holding held (new ++ rest) = sleeps_holding held rest
  /\ held_after held (new ++ rest) = held_after held rest.
Proof.
  induction new as [|e new IH]; intros H; cbn in *; [auto|].
  apply andb_true_iff in H as [He Hnew].
  destruct e; try discriminate; cbn; auto.
Qed.

(** C6, as the code has it.  A pass with the lock that finds [registered]
    false takes the lock, runs the attempt, sleeps one second and only then
    releases the lock: the lock is held while the goroutine sleeps and is
    free after the pass.  A pass that finds [registered] true takes and
    releases the lock without sleeping. *)
Theorem C6_lock_is_released_after_the_sleep (s : System) (i : nat) (t : Task) :
  reachable Now s -> tasks s !! i = Some t -> pc t = AtLock ->
  exists s' added,
    step Now (DoRun i) s = (Returned tt, s')
    /\ trace s' = trace s ++ added
    /\ mutex (server s') = false
    /\ (if registered (server s)
        then added = [EvLock; EvUnlock]
        else exists new,
               added = pass_events new
               /\ forallb is_attempt_event new = true
               /\ sleeps_holding false added = true
               /\ held_after false added = false).
Proof.
  intros Hreach Ht Hpc. pose proof (reachable_mutex_free s Hreach) as Hmu.
  rewrite (step_run i t s Ht).
  destruct (registered (server s)) eqn:Hreg.
  - rewrite run_task_registered by assumption. cbn.
    eexists _, _. repeat split. exact Hmu.
  - destruct (run_task_attempt t s Hpc Hmu Hreg)
      as (m2 & _ & [(new & Hev & Hnew) _] & ->). cbn.
    exists (mkSystem (set_mutex false (rcs m2))
              (<[i := mkTask AtSelect (ins m2) (tryTimes m2) (ingressReady t) (egressReady t)]>
                 (tasks s))
              (world m2) (events m2 ++ [EvSleep (1 * time.Second); EvUnlock])),
           (pass_events new).
    split; [reflexivity|]. cbn. split.
    { rewrite Hev. cbn. unfold pass_events. rewrite <- !app_assoc. reflexivity. }
    split; [reflexivity|]. exists new. split; [reflexivity|]. split; [exact Hnew|].
    unfold pass_events. cbn.
    destruct (sleeps_holding_attempt new [EvSleep (1 * time.Second); EvUnlock] true Hnew)
      as [-> ->].
    split; reflexivity.
Qed.

(** *** The pass with the lock does not look at [done]

    [Close] may run while a goroutine is inside its pass, asleep with the
    lock.  The pass neither reads nor writes [done], so closing during the
    pass is closing right after it. *)
Lemma blind_ret {A} (a : A) : blind (ret a).
Proof. intros m. reflexivity. Qed.

Lemma blind_panic {A} (v : string) : blind (panic (A := A) v).
Proof. intros m. reflexivity. Qed.

Lemma blind_bind {A B} (c : M A) (k : A -> M B) :
  blind c -> (forall a, blind (k a)) -> blind (bind c k).
Proof.
  intros Hc Hk m. unfold bind. rewrite Hc.
  destruct (c m) as [[a|v] m1]; cbn; [apply Hk | reflexivity].
Qed.

Lemma blind_read {A} (f : Mem -> A) : (forall m, f (closing m) = f m) -> blind (read f).
Proof. intros Hf m. unfold read. rewrite Hf. reflexivity. Qed.

Lemma blind_emit (e : Event) : blind (emit e).
Proof. intros m. reflexivity. Qed.

Lemma blind_call {A} (f : Ext A) : blind (call f).
Proof. intros m. unfold call. cbn. destruct (f (world m)); reflexivity. Qed.

Lemma blind_now : blind (now Now).
Proof. intros m. unfold now. cbn. destruct (Now (world m)); reflexivity. Qed.

Lemma blind_update_ins f : blind (update_ins (W := W) f).
Proof. intros m. reflexivity. Qed.

Lemma blind_update_tryTimes f : blind (update_tryTimes (W := W) f).
Proof. intros m. reflexivity. Qed.

Lemma blind_set_registered (b : bool) : blind (update_rcs (W := W) (set_registered b)).
Proof. intros m. reflexivity. Qed.

Lemma blind_set_mutex (b : bool) : blind (update_rcs (W := W) (set_mutex b)).
Proof. intros m. reflexivity. Qed.

Lemma blind_defer_recover (h : string -> M unit) (body : M unit) :
  (forall v, blind (h v)) -> blind body -> blind (defer_recover h body).
Proof.
  intros Hh Hb m. unfold defer_recover. rewrite Hb.
  destruct (body m) as [[[]|v] m1]; cbn; [reflexivity | apply Hh].
Qed.

Create HintDb blind.
#[local] Hint Resolve blind_ret blind_panic blind_emit blind_call blind_now blind_update_ins
  blind_update_tryTimes blind_set_registered blind_set_mutex : blind.

Ltac blind_tac :=
  repeat first
    [ apply blind_bind; [|intros ?]
    | apply blind_read; intros ?; reflexivity
    | solve [auto with blind]
    | match goal with |- blind (if ?b then _ else _) => destruct b end
    | match goal with |- blind (match ?o with Some _ => _ | None => _ end) => destruct o end ].

Lemma blind_locked_pass (ingress egress : ReadyFunc) : blind (locked_pass Now ingress egress).
Proof.
  assert (Hattempt : blind (attempt Now ingress egress)).
  { unfold attempt, not_ready, service_Get, service_Put. blind_tac. }
  assert (Hroutine : blind (routine Now ingress egress)).
  { unfold routine. apply blind_defer_recover; [intros v; apply blind_emit | exact Hattempt]. }
  unfold locked_pass, mutex_Lock, mutex_Unlock, Sleep. blind_tac.
Qed.

Lemma run_task_closed (t : Task) (s : System) :
  pc t = AtLock -> mutex (server s) = false ->
  run_task Now t (closed_sys s)
  = (fst (run_task Now t s),
     (fst (snd (run_task Now t s)), closed_sys (snd (snd (run_task Now t s))))).
Proof.
  intros Hpc Hmu. unfold run_task. rewrite Hpc.
  change (mutex (server (closed_sys s))) with (mutex (server s)). rewrite Hmu.
  change (mkMem (server (closed_sys s)) (t_ins t) (t_tryTimes t)
            (sys_world (closed_sys s)) (trace (closed_sys s)))
    with (closing (mem_of t s)).
  rewrite blind_locked_pass. fold (mem_of t s).
  destruct (locked_pass Now (ingressReady t) (egressReady t) (mem_of t s)) as [[again|v] m'];
    reflexivity.
Qed.

(** [Close] before the pass of a goroutine and [Close] after it lead to
    the same state. *)
Lemma close_commutes_with_pass (s : System) (i : nat) (t : Task) :
  mutex (server s) = false -> done (server s) = false ->
  tasks s !! i = Some t -> pc t = AtLock ->
  exec Now [DoClose; DoRun i] s = exec Now [DoRun i; DoClose] s
  /\ fst (exec Now [DoRun i; DoClose] s) = Returned tt.
Proof.
  intros Hmu Hd Ht Hpc.
  pose proof (run_task_safe t s Hmu) as (Hret & _ & Htasks & Hdone & _).
  assert (Hleft : step Now DoClose s = (Returned tt, closed_sys s)).
  { cbn. unfold Close. rewrite Hd. reflexivity. }
  cbn [exec]. rewrite Hleft.
  rewrite (step_run i t s Ht), (step_run i t (closed_sys s) Ht).
  rewrite (run_task_closed t s Hpc Hmu).
  destruct (run_task Now t s) as [r [t' s']]. cbn in Hret, Htasks, Hdone |- *.
  subst r. unfold Close. cbn. rewrite Hdone, Hd. split; reflexivity.
Qed.

(** C7. [Close] and the goroutine of [register], in a reachable state:
    - on an open [done], [Close] returns, closes [done] and changes nothing
      else (in particular when every goroutine has returned already); a
      second [Close] right after panics and changes nothing;
    - a closed [done] stays closed under every action;
    - with [done] closed, a goroutine at the [select] returns there: no
      lock, no attempt, no event, the world and the server as they were;
    - a goroutine that has returned does nothing when scheduled again;
    - entered with [done] closed, the loop of [register] returns at once
      and leaves the memory as it is;
    - a [Close] that comes while a goroutine is in its pass with the lock
      (asleep, say) has the effect of a [Close] right after that pass: the
      pass is finished and the next [select] sees the signal. *)
Theorem C7_close_signals_once (s : System) :
  reachable Now s ->
  (done (server s) = false ->
   exists s',
     Close s = (Returned tt, s')
     /\ server s' = set_done true (server s)
     /\ tasks s' = tasks s /\ sys_world s' = sys_world s /\ trace s' = trace s
     /\ Close s' = (Panicked "close of closed channel", s'))
  /\ (done (server s) = true ->
      Close s = (Panicked "close of closed channel", s)
      /\ forall a, done (server (snd (step Now a s))) = true)
  /\ (done (server s) = true ->
      forall i t, tasks s !! i = Some t -> pc t = AtSelect ->
      exists s',
        step Now (DoRun i) s = (Returned tt, s')
        /\ tasks s' !! i = Some (with_pc (Exited Cancelled) t)
        /\ server s' = server s /\ sys_world s' = sys_world s /\ trace s' = trace s)
  /\ (forall i t why, tasks s !! i = Some t -> pc t = Exited why ->
      exists s',
        step Now (DoRun i) s = (Returned tt, s')
        /\ tasks s' = tasks s
        /\ server s' = server s /\ sys_world s' = sys_world s /\ trace s' = trace s)
  /\ (forall fuel ingress egress (m : Mem),
        done (rcs m) = true ->
        register Now (S fuel) ingress egress m = (Returned (Some Cancelled), m))
  /\ (done (server s) = false ->
      forall i t, tasks s !! i = Some t -> pc t = AtLock ->
      exec Now [DoClose; DoRun i] s = exec Now [DoRun i; DoClose] s
      /\ fst (exec Now [DoRun i; DoClose] s) = Returned tt).
Proof.
  intros Hreach. pose proof (reachable_mutex_free s Hreach) as Hmu.
  split; [|split; [|split; [|split; [|split]]]];
    [| | | |intros fuel ingress egress m; apply register_unfold
     |intros Hd i t Ht Hpc; apply (close_commutes_with_pass s i t); assumption].
  - intros Hd. unfold Close. rewrite Hd. eexists. split; [reflexivity|]. cbn.
    repeat split.
  - intros Hd. split; [unfold Close; rewrite Hd; reflexivity|].
    intros a. apply step_safe; assumption.
  - intros Hd i t Ht Hpc.
    rewrite (step_run i t s Ht), run_task_select by exact Hpc. cbn. rewrite Hd.
    eexists. split; [reflexivity|]. cbn. split; [|auto].
    apply (lookup_updated i t), Ht.
  - intros i t why Ht Hpc.
    rewrite (step_run i t s Ht), (run_task_exited t s why) by exact Hpc. cbn.
    eexists. split; [reflexivity|]. cbn. split; [|auto].
    apply list_insert_id, Ht.
Qed.

(** C8. Fault containment: when the attempt of a pass panics with [v], the
    [recover] of [routine] stops the panic and logs it; the pass goes on
    to its sleep and unlock, the step returns (the process lives), what the
    attempt wrote before the panic is kept, and the goroutine is back on
    top of its loop, at the [select], for its next iteration: the loop of
    [register] goes on from the memory the pass left. *)
Theorem C8_fault_containment (s : System) (i : nat) (t : Task) (v : string) (m1 : Mem) :
  reachable Now s -> tasks s !! i = Some t -> pc t = AtLock ->
  registered (server s) = false ->
  attempt Now (ingressReady t) (egressReady t) (locked (mem_of t s)) = (Panicked v, m1) ->
  routine Now (ingressReady t) (egressReady t) (locked (mem_of t s))
    = (Returned tt,
       mkMem (rcs m1) (ins m1) (tryTimes m1) (world m1)
         (events m1 ++ [EvError (RecoverFrom v)]))
  /\ exists s',
       step Now (DoRun i) s = (Returned tt, s')
       /\ tasks s' !! i
            = Some (mkTask AtSelect (ins m1) (tryTimes m1) (ingressReady t) (egressReady t))
       /\ trace s' = events m1
                       ++ [EvError (RecoverFrom v); EvSleep (1 * time.Second); EvUnlock]
       /\ sys_world s' = world m1
       /\ mutex (server s') = false
       /\ (done (server s) = false ->
           forall fuel,
             register Now (S fuel) (ingressReady t) (egressReady t) (mem_of t s)
             = register Now fuel (ingressReady t) (egressReady t)
                 (unlocked_after_sleep
                    (mkMem (rcs m1) (ins m1) (tryTimes m1) (world m1)
                       (events m1 ++ [EvError (RecoverFrom v)])))).
Proof.
  intros Hreach Ht Hpc Hreg Hpanic. pose proof (reachable_mutex_free s Hreach) as Hmu.
  assert (Hrun : routine Now (ingressReady t) (egressReady t) (locked (mem_of t s))
                 = (Returned tt,
                    mkMem (rcs m1) (ins m1) (tryTimes m1) (world m1)
                      (events m1 ++ [EvError (RecoverFrom v)]))).
  { unfold routine, defer_recover. rewrite Hpanic. reflexivity. }
  split; [exact Hrun|].
  destruct (run_task_attempt t s Hpc Hmu Hreg) as (m2 & Hrun2 & _ & Hstep).
  rewrite Hrun in Hrun2. injection Hrun2 as <-.
  rewrite (step_run i t s Ht), Hstep. cbn.
  eexists. split; [reflexivity|]. cbn.
  split; [apply (lookup_updated i t), Ht|].
  rewrite <- app_assoc. split; [reflexivity|]. split; [reflexivity|].
  split; [reflexivity|].
  intros Hd fuel.
  destruct (register_unfold fuel (ingressReady t) (egressReady t) (mem_of t s))
    as (_ & _ & Hgo).
  destruct (Hgo Hd Hreg) as (m3 & Hrun3 & Hloop).
  rewrite Hrun in Hrun3. injection Hrun3 as <-. exact Hloop.
Qed.

(** ** Whole runs of the registry center *)

(** What one attempt does, whatever the gates and the store answer. *)
Definition attempt_event_of (m m' : Mem) (e : Event) : Prop :=
  match e with
  | EvGet sn id => sn = serviceName (rcs m) /\ id = instanceID (rcs m)
  | EvPut r => r = ins m' /\ spec.Status r = spec.SerivceStatusUp
  | _ => True
  end.

Ltac effect_done :=
  eexists _, _; split; [reflexivity|];
  split; [cbn; rewrite <- ?app_assoc; reflexivity|];
  split; [first [left; reflexivity | right; reflexivity]|];
  split; [cbn; repeat split|];
  split; [cbn; repeat constructor|];
  split; [cbn; first [left; reflexivity | right; split; [eexists; reflexivity | reflexivity]]|];
  cbn; intros; first [right; reflexivity | left; assumption].

Lemma routine_effect (ingress egress : ReadyFunc) (m : Mem) :
  exists m' new,
    routine Now ingress egress m = (Returned tt, m')
    /\ events m' = events m ++ new
    /\ (rcs m' = rcs m \/ rcs m' = set_registered true (rcs m))
    /\ (spec.ServiceName (ins m') = spec.ServiceName (ins m)
        /\ spec.InstanceID (ins m') = spec.InstanceID (ins m)
        /\ spec.IP (ins m') = spec.IP (ins m)
        /\ spec.Port (ins m') = spec.Port (ins m)
        /\ spec.Labels (ins m') = spec.Labels (ins m))
    /\ Forall (attempt_event_of m m') new
    /\ (written new = [] \/ (exists r, written new = [r]) /\ registered (rcs m') = true)
    /\ (registered (rcs m') = true ->
        registered (rcs m) = true \/ existsb is_store_read new = true).
Proof.
  unfold routine, defer_recover, attempt, not_ready, service_Get, service_Put.
  unfold bind, call, read, ret, emit, update_tryTimes, update_rcs, update_ins, now. cbn.
  destruct (ingress (world m)) as [[[|]|v] w1]; cbn.
  - destruct (egress w1) as [[[|]|v] w2]; cbn.
    + match goal with
      | |- context [GetServiceInstanceSpec ?a ?b ?c ?d] =>
          destruct (GetServiceInstanceSpec a b c d) as [[[o|]|v] w3]
      end; cbn.
      * destruct (needUpdateRecord (Some o) (ins m)); cbn.
        -- destruct (Now w3) as [t w4]; cbn. destruct_put; cbn; effect_done.
        -- effect_done.
      * destruct (Now w3) as [t w4]; cbn. destruct_put; cbn; effect_done.
      * effect_done.
    + destruct (ingress w2) as [[i2|v] w3]; cbn;
        [destruct (egress w3) as [[e2|v] w4]; cbn|]; effect_done.
    + effect_done.
  - destruct (ingress w1) as [[i2|v] w3]; cbn;
      [destruct (egress w3) as [[e2|v] w4]; cbn|]; effect_done.
  - effect_done.
Qed.

Lemma written_app (a b : list Event) : written (a ++ b) = written a ++ written b.
Proof. unfold written. apply omap_app. Qed.

Lemma held_after_app (h : bool) (a b : list Event) :
  held_after h (a ++ b) = held_after (held_after h a) b.
Proof. revert h; induction a as [|e a IH]; intros h; [reflexivity|]. destruct e; cbn; apply IH. Qed.

Lemma guarded_app (h : bool) (a b : list Event) :
  guarded h (a ++ b) = guarded h a && guarded (held_after h a) b.
Proof.
  revert h; induction a as [|e a IH]; intros h; [reflexivity|].
  destruct e; cbn; rewrite ?IH, ?andb_assoc; reflexivity.
Qed.

Lemma guarded_attempt (new : list Event) :
  forallb is_attempt_event new = true ->
  guarded true new = true /\ held_after true new = true.
Proof.
  induction new as [|e new IH]; intros H; cbn in *; [auto|].
  apply andb_true_iff in H as [He Hnew]. destruct (IH Hnew) as [IH1 IH2].
  destruct e; try discriminate; cbn; rewrite ?orb_true_r; auto.
Qed.

(** What every state of a run from the server [r0] satisfies. *)
Definition run_invariant (r0 : Server) (s : System) : Prop :=
  same_identity r0 (server s)
  /\ mutex (server s) = false
  /\ Forall (fun t => own_record r0 (t_ins t)) (tasks s)
  /\ Forall (own_event r0) (trace s)
  /\ (length (written (trace s)) <= 1)%nat
  /\ (registered (server s) = false -> written (trace s) = [])
  /\ (registered (server s) = true -> existsb is_store_read (trace s) = true)
  /\ held_after false (trace s) = false
  /\ guarded false (trace s) = true.

Lemma run_invariant_boot (r0 : Server) (w : W) :
  mutex r0 = false -> registered r0 = false -> run_invariant r0 (boot r0 w).
Proof.
  intros Hmu Hreg. unfold run_invariant, boot, same_identity. cbn.
  repeat split; auto. discriminate || (intros H; rewrite Hreg in H; discriminate).
Qed.

Lemma run_invariant_step (r0 : Server) (a : Action) (s : System) :
  run_invariant r0 s -> run_invariant r0 (snd (step Now a s)).
Proof.
  intros (Hid & Hmu & Htasks & Htrace & Hlen & Hnone & Hread & Hheld & Hguard).
  destruct a as [sp ing eg| |i].
  - (* Register *)
    cbn. unfold Register, Registered. cbn.
    assert (Hid' : same_identity r0 (set_tenant (spec.RegisterTenant sp) (server s))).
    { destruct Hid as (?&?&?&?&?&?&?). repeat split; assumption. }
    destruct (registered (server s)) eqn:Hreg; cbn.
    + split; [exact Hid'|]. split; [exact Hmu|]. split; [exact Htasks|].
      split; [exact Htrace|]. split; [exact Hlen|]. cbn. rewrite Hreg. auto.
    + split; [exact Hid'|]. split; [exact Hmu|].
      split.
      { apply Forall_app; split; [exact Htasks|]. constructor; [|constructor].
        destruct Hid as (?&?&?&?&?&?&?). cbn.
        repeat split; first [assumption | symmetry; assumption]. }
      split; [exact Htrace|]. split; [exact Hlen|]. cbn. rewrite Hreg. auto.
  - (* Close *)
    cbn. unfold Close. destruct (done (server s)); cbn.
    + split; [exact Hid|]. repeat split; assumption.
    + assert (Hid' : same_identity r0 (set_done true (server s))).
      { destruct Hid as (?&?&?&?&?&?&?). repeat split; assumption. }
      split; [exact Hid'|]. split; [exact Hmu|]. split; [exact Htasks|].
      split; [exact Htrace|]. split; [exact Hlen|]. cbn. auto.
  - (* a goroutine steps *)
    destruct (tasks s !! i) as [t|] eqn:Ht;
      [|cbn; rewrite Ht; split; [exact Hid|]; repeat split; assumption].
    rewrite (step_run i t s Ht).
    assert (Hown : own_record r0 (t_ins t)).
    { rewrite Forall_forall in Htasks. apply (Htasks t).
      apply list_elem_of_lookup. eauto. }
    destruct (pc t) as [| |why] eqn:Hpc.
    + rewrite run_task_select by exact Hpc. cbn.
      split; [exact Hid|]. repeat split; try assumption. apply Forall_insert; assumption.
    + destruct (registered (server s)) eqn:Hreg.
      * rewrite run_task_registered by assumption.
        unfold run_invariant. cbn [server tasks sys_world trace fst snd].
        split; [exact Hid|]. split; [exact Hmu|].
        split; [apply Forall_insert; assumption|].
        split; [apply Forall_app; split; [exact Htrace | repeat constructor]|].
        rewrite written_app, held_after_app, guarded_app, Hheld, Hguard, existsb_app.
        cbn. rewrite app_nil_r.
        split; [exact Hlen|]. split; [intros Hfalse; congruence|].
        split; [intros _; rewrite orb_false_r; apply Hread; reflexivity|].
        split; reflexivity.
      * destruct (run_task_attempt t s Hpc Hmu Hreg)
          as (m2 & Hrun & [(new' & Hev' & Hnew') _] & ->).
        destruct (routine_effect (ingressReady t) (egressReady t) (locked (mem_of t s)))
          as (m' & new & Hrun' & Hev & Hrcs & Hins & Hown' & Hwr & Hrd).
        rewrite Hrun in Hrun'. injection Hrun' as <-.
        assert (new' = new) by (rewrite Hev' in Hev; apply app_inv_head in Hev; exact Hev).
        subst new'. unfold run_invariant. cbn [server tasks sys_world trace fst snd].
        cbn in Hev, Hrcs, Hins, Hown', Hrd.
        destruct Hins as (I1 & I2 & I3 & I4 & I5).
        destruct Hown as (O1 & O2 & O3 & O4).
        assert (Hown2 : own_record r0 (ins m2)).
        { unfold own_record. rewrite I1, I2, I3, I5. auto. }
        destruct (guarded_attempt new Hnew') as [Hg Hh].
        destruct Hid as (S1 & S2 & S3 & S4 & S5 & S6 & S7).
        assert (Hsrv : same_identity r0 (set_mutex false (rcs m2))).
        { destruct Hrcs as [-> | ->]; cbn; repeat split; assumption. }
        split; [exact Hsrv|]. split; [reflexivity|].
        split; [apply Forall_insert; assumption|].
        rewrite Hev, <- !app_assoc. cbn.
        split.
        { apply Forall_app; split; [exact Htrace|]. constructor; [exact I|].
          apply Forall_app; split; [|repeat constructor].
          eapply Forall_impl; [exact Hown'|].
          intros e He. destruct e; cbn in He |- *; auto.
          - destruct He as [-> ->]. split; assumption.
          - destruct He as [-> HS]. split; assumption. }
        rewrite !written_app, !held_after_app, !guarded_app, !existsb_app, Hheld, Hguard.
        rewrite (Hnone eq_refl). cbn.
        rewrite written_app, held_after_app, guarded_app, existsb_app, Hg, Hh. cbn.
        rewrite app_nil_r, !orb_false_r.
        repeat split.
        -- destruct Hwr as [-> | [(r & ->) _]]; cbn; lia.
        -- intros Hfalse. destruct Hwr as [-> | [_ Htrue]]; [reflexivity|].
           cbn in Hfalse. congruence.
        -- intros Htrue. cbn in Htrue.
           destruct (Hrd Htrue) as [Hc | ->]; [|apply orb_true_r].
           destruct Hrcs as [E|E]; cbn in Hc; rewrite Hreg in Hc; discriminate.
    + rewrite (run_task_exited t s why) by exact Hpc. cbn.
      split; [exact Hid|]. repeat split; try assumption. apply Forall_insert; assumption.
Qed.

Lemma run_invariant_exec (r0 : Server) (acts : list Action) (s : System) :
  run_invariant r0 s -> run_invariant r0 (snd (exec Now acts s)).
Proof.
  revert s; induction acts as [|a acts IH]; intros s H; cbn; [exact H|].
  pose proof (run_invariant_step r0 a s H) as H1.
  destruct (step Now a s) as [[[]|v] s1]; cbn in *; [apply IH, H1 | exact H1].
Qed.

Lemma fresh_server_invariant registryType serviceName IP port instanceID serviceLabels
    (service : Service) (w : W) (acts : list Action) :
  run_invariant
    (NewRegistryCenterServer registryType serviceName IP port instanceID serviceLabels service)
    (snd (exec Now acts
            (boot (NewRegistryCenterServer registryType serviceName IP port instanceID
                     serviceLabels service) w))).
Proof. apply run_invariant_exec, run_invariant_boot; reflexivity. Qed.

(** X1. In any run of a fresh server, whatever the owner and the scheduler
    do and however many goroutines [Register] started, the store is
    written at most once; and when it has been written, [registered] is
    true. *)
Theorem at_most_one_write registryType serviceName IP port instanceID serviceLabels
    (service : Service) (w : W) (acts : list Action) :
  (length (written (trace (snd (exec Now acts
             (boot (NewRegistryCenterServer registryType serviceName IP port instanceID
                      serviceLabels service) w))))) <= 1)%nat
  /\ (written (trace (snd (exec Now acts
             (boot (NewRegistryCenterServer registryType serviceName IP port instanceID
                      serviceLabels service) w)))) = []
      \/ registered (server (snd (exec Now acts
             (boot (NewRegistryCenterServer registryType serviceName IP port instanceID
                      serviceLabels service) w)))) = true).
Proof.
  destruct (fresh_server_invariant registryType serviceName IP port instanceID
              serviceLabels service w acts) as (_ & _ & _ & _ & Hlen & Hnone & _).
  split; [exact Hlen|].
  destruct (registered (server _)); [right; reflexivity | left; apply Hnone; reflexivity].
Qed.

(** X2. In any run of a fresh server, [registered] is true only after the
    store has been read: it is never set on the word of the gates alone. *)
Theorem registered_only_after_a_read registryType serviceName IP port instanceID
    serviceLabels (service : Service) (w : W) (acts : list Action) :
  registered (server (snd (exec Now acts
      (boot (NewRegistryCenterServer registryType serviceName IP port instanceID
               serviceLabels service) w)))) = false
  \/ existsb is_store_read (trace (snd (exec Now acts
      (boot (NewRegistryCenterServer registryType serviceName IP port instanceID
               serviceLabels service) w)))) = true.
Proof.
  destruct (fresh_server_invariant registryType serviceName IP port instanceID
              serviceLabels service w acts) as (_ & _ & _ & _ & _ & _ & Hread & _).
  destruct (registered (server _)); [right; apply Hread; reflexivity | left; reflexivity].
Qed.

(** X3. In any run of a fresh server every read and every write of the
    store happens between a [Lock] and the [Unlock] after it, and between
    two steps the lock is free: the attempts of all goroutines of one
    server are serialised. *)
Theorem store_access_only_under_the_lock registryType serviceName IP port instanceID
    serviceLabels (service : Service) (w : W) (acts : list Action) :
  guarded false (trace (snd (exec Now acts
      (boot (NewRegistryCenterServer registryType serviceName IP port instanceID
               serviceLabels service) w)))) = true
  /\ held_after false (trace (snd (exec Now acts
      (boot (NewRegistryCenterServer registryType serviceName IP port instanceID
               serviceLabels service) w)))) = false
  /\ mutex (server (snd (exec Now acts
      (boot (NewRegistryCenterServer registryType serviceName IP port instanceID
               serviceLabels service) w)))) = false.
Proof.
  destruct (fresh_server_invariant registryType serviceName IP port instanceID
              serviceLabels service w acts) as (_ & Hmu & _ & _ & _ & _ & _ & Hheld & Hg).
  auto.
Qed.

(** X4. In any run of a fresh server the store is only read by the
    server's own key (service name, instance id), and a record that is
    written carries the server's service name, instance id, IP and labels
    and the status up: no other record is ever touched. *)
Theorem only_the_own_record_is_touched registryType serviceName IP port instanceID
    serviceLabels (service : Service) (w : W) (acts : list Action) :
  Forall
    (fun e =>
       match e with
       | EvGet sn id => sn = serviceName /\ id = instanceID
       | EvPut r =>
           spec.ServiceName r = serviceName /\ spec.InstanceID r = instanceID
           /\ spec.IP r = IP /\ spec.Labels r = serviceLabels
           /\ spec.Status r = "up"
       | _ => True
       end)
    (trace (snd (exec Now acts
       (boot (NewRegistryCenterServer registryType serviceName IP port instanceID
                serviceLabels service) w)))).
Proof.
  destruct (fresh_server_invariant registryType serviceName IP port instanceID
              serviceLabels service w acts) as (_ & _ & _ & Hown & _).
  eapply Forall_impl; [exact Hown|].
  intros e He. destruct e; cbn in He |- *; auto.
  destruct He as ((H1 & H2 & H3 & H4) & H5). auto.
Qed.

(** *** The loop against a store and gates that behave *)

(** An attempt whose gates pass and whose read returns sets [registered],
    reads once, and writes once or not at all. *)
Lemma routine_registers (ingress egress : ReadyFunc) (m : Mem) (w2 w3 : W)
    (o : option spec.ServiceInstanceSpec) :
  gates_pass ingress egress (world m) w2 ->
  GetServiceInstanceSpec (service (rcs m)) (serviceName (rcs m)) (instanceID (rcs m)) w2
    = (Returned o, w3) ->
  exists m' new,
    routine Now ingress egress m = (Returned tt, m')
    /\ rcs m' = set_registered true (rcs m)
    /\ events m' = events m ++ new
    /\ forallb is_attempt_event new = true
    /\ reads new = [(serviceName (rcs m), instanceID (rcs m))]
    /\ length (written new) = (if needUpdateRecord o (ins m) then 1 else 0)%nat.
Proof.
  intros (w1 & Hi & He) Hget.
  unfold routine, defer_recover, attempt, not_ready, service_Get, service_Put.
  unfold bind, call, read, ret, emit, update_tryTimes, update_rcs, update_ins, now. cbn.
  rewrite Hi. cbn. rewrite He. cbn. rewrite Hget. cbn.
  destruct o as [r|]; cbn.
  - destruct (needUpdateRecord (Some r) (ins m)); cbn.
    + destruct (Now w3) as [t w4]; cbn. destruct_put; cbn;
        eexists _, _; (split; [reflexivity|]); (split; [reflexivity|]);
        (split; [rewrite <- !app_assoc; reflexivity|]); repeat split.
    + eexists _, _. split; [reflexivity|]. split; [reflexivity|].
      split; [rewrite <- !app_assoc; reflexivity|]. repeat split.
  - destruct (Now w3) as [t w4]; cbn. destruct_put; cbn;
      eexists _, _; (split; [reflexivity|]); (split; [reflexivity|]);
      (split; [rewrite <- !app_assoc; reflexivity|]); repeat split.
Qed.

(** X5. Convergence.  From an unregistered server whose [done] is open, if
    both gates return true and the read of the store returns, the loop of
    [register] ends as registered in its second turn: one read, one write
    exactly when the record is absent or has another IP or Port, one sleep
    of a second, and the lock free at the end. *)
Theorem register_converges (ingress egress : ReadyFunc) (m : Mem) (w2 w3 : W)
    (o : option spec.ServiceInstanceSpec) (fuel : nat) :
  done (rcs m) = false -> registered (rcs m) = false ->
  gates_pass ingress egress (world m) w2 ->
  GetServiceInstanceSpec (service (rcs m)) (serviceName (rcs m)) (instanceID (rcs m)) w2
    = (Returned o, w3) ->
  exists m' new,
    register Now (S (S fuel)) ingress egress m = (Returned (Some AlreadyRegistered), m')
    /\ registered (rcs m') = true
    /\ mutex (rcs m') = false
    /\ events m' = events m ++ new
    /\ reads new = [(serviceName (rcs m), instanceID (rcs m))]
    /\ length (written new) = (if needUpdateRecord o (ins m) then 1 else 0)%nat
    /\ sleeps new = [1 * time.Second].
Proof.
  intros Hd Hreg Hgates Hget.
  destruct (routine_registers ingress egress (locked m) w2 w3 o Hgates Hget)
    as (m1 & new & Hrun & Hrcs & Hev & Hatt & Hreads & Hwr).
  destruct (register_unfold (S fuel) ingress egress m) as (_ & _ & Hgo).
  destruct (Hgo Hd Hreg) as (m1' & Hrun' & ->).
  rewrite Hrun in Hrun'. injection Hrun' as <-.
  destruct (register_unfold fuel ingress egress (unlocked_after_sleep m1)) as (_ & Hexit & _).
  rewrite Hexit by (cbn; rewrite Hrcs; cbn; assumption || reflexivity).
  eexists _, (EvLock :: new ++ [EvSleep (1 * time.Second); EvUnlock; EvLock; EvUnlock]).
  split; [reflexivity|]. cbn. rewrite Hrcs, Hev. cbn.
  split; [reflexivity|]. split; [reflexivity|].
  split; [rewrite <- !app_assoc; reflexivity|].
  unfold reads, sleeps in *. rewrite written_app, !omap_app, Hreads. cbn.
  rewrite length_app, Hwr. cbn.
  split; [reflexivity|]. split; [lia|].
  clear - Hatt. induction new as [|e new IH]; [reflexivity|].
  cbn in Hatt. apply andb_true_iff in Hatt as [He Hnew].
  destruct e; try discriminate; cbn; apply IH, Hnew.
Qed.

(** An attempt that the gates block. *)
Lemma routine_blocked (ingress egress : ReadyFunc) (m : Mem) :
  gate_blocks ingress egress (world m) ->
  exists m' new,
    routine Now ingress egress m = (Returned tt, m')
    /\ rcs m' = rcs m /\ ins m' = ins m
    /\ tryTimes m' = wrap64 (tryTimes m + 1)
    /\ events m' = events m ++ new
    /\ forallb is_attempt_event new = true
    /\ no_store_access new = true.
Proof.
  intros Hblock.
  unfold routine, defer_recover, attempt, not_ready.
  unfold bind, call, read, ret, emit, update_tryTimes. cbn.
  destruct Hblock as [(w1 & Hi) | (w1 & w2 & Hi & He)].
  - rewrite Hi. cbn.
    destruct (ingress w1) as [[i2|v] w3]; cbn;
      [destruct (egress w3) as [[e2|v] w4]; cbn|];
      eexists _, [_]; repeat split.
  - rewrite Hi. cbn. rewrite He. cbn.
    destruct (ingress w2) as [[i2|v] w3]; cbn;
      [destruct (egress w3) as [[e2|v] w4]; cbn|];
      eexists _, [_]; repeat split.
Qed.

Lemma sleeps_app (a b : list Event) : sleeps (a ++ b) = sleeps a ++ sleeps b.
Proof. unfold sleeps. apply omap_app. Qed.

Lemma no_store_access_app (a b : list Event) :
  no_store_access (a ++ b) = no_store_access a && no_store_access b.
Proof. unfold no_store_access. apply forallb_app. Qed.

Lemma sleeps_attempt (new : list Event) :
  forallb is_attempt_event new = true -> sleeps new = [].
Proof.
  induction new as [|e new IH]; intros H; [reflexivity|].
  cbn in H. apply andb_true_iff in H as [He Hnew].
  destruct e; try discriminate; cbn; apply IH, Hnew.
Qed.

(** X6. No give-up.  While the gates block in every state of the world and
    nobody closes [done], the loop of [register] never returns: after any
    number of turns it is still looping, [registered] is false, the record
    is untouched, the store was neither read nor written, [tryTimes]
    counts the turns (with the wrap-around of an int), and there was one
    sleep per turn. *)
Theorem register_keeps_trying (ingress egress : ReadyFunc) (fuel : nat) (m : Mem) :
  (forall w, gate_blocks ingress egress w) ->
  done (rcs m) = false -> registered (rcs m) = false ->
  exists m' new,
    register Now fuel ingress egress m = (Returned None, m')
    /\ registered (rcs m') = false /\ done (rcs m') = false
    /\ ins m' = ins m
    /\ tryTimes m' = Nat.iter fuel (fun n => wrap64 (n + 1)) (tryTimes m)
    /\ events m' = events m ++ new
    /\ no_store_access new = true
    /\ length (sleeps new) = fuel.
Proof.
  intros Hgates. revert m. induction fuel as [|fuel IH]; intros m Hd Hreg.
  - exists m, []. cbn. rewrite app_nil_r. repeat split; assumption.
  - destruct (routine_blocked ingress egress (locked m) (Hgates _))
      as (m1 & new & Hrun & Hrcs & Hins & Htry & Hev & Hatt & Hno).
    destruct (register_unfold fuel ingress egress m) as (_ & _ & Hgo).
    destruct (Hgo Hd Hreg) as (m1' & Hrun' & ->).
    rewrite Hrun in Hrun'. injection Hrun' as <-.
    destruct (IH (unlocked_after_sleep m1)) as (m' & new' & Hloop & Hr & Hdn & Hi & Ht & He & Hn & Hs).
    { cbn. rewrite Hrcs. exact Hd. }
    { cbn. rewrite Hrcs. exact Hreg. }
    exists m', (EvLock :: new ++ [EvSleep (1 * time.Second); EvUnlock] ++ new').
    split; [exact Hloop|]. split; [exact Hr|]. split; [exact Hdn|].
    split; [rewrite Hi; cbn; exact Hins|].
    split.
    { rewrite Ht. unfold unlocked_after_sleep. cbn [tryTimes]. rewrite Htry.
      unfold locked. cbn [tryTimes]. symmetry.
      apply (Nat.iter_succ_r fuel (fun n => wrap64 (n + 1)) (tryTimes m)). }
    split; [rewrite He; cbn; rewrite Hev; cbn; rewrite <- !app_assoc; reflexivity|].
    change (EvLock :: new ++ [EvSleep (1 * time.Second); EvUnlock] ++ new')
      with ([EvLock] ++ new ++ [EvSleep (1 * time.Second); EvUnlock] ++ new').
    rewrite !no_store_access_app, !sleeps_app, Hno, Hn, (sleeps_attempt new Hatt).
    split; [reflexivity|]. cbn [sleeps omap app length]. cbn. rewrite Hs. reflexivity.
Qed.

(** X7. A read that fails is retried.  When both gates return true and the
    read of the store panics, the attempt is recovered with [registered]
    still false and the record untouched, nothing is written, and after
    the sleep the loop goes round again from that state. *)
Theorem read_fault_is_retried (ingress egress : ReadyFunc) (m : Mem) (w2 w3 : W)
    (v : string) (fuel : nat) :
  done (rcs m) = false -> registered (rcs m) = false ->
  gates_pass ingress egress (world m) w2 ->
  GetServiceInstanceSpec (service (rcs m)) (serviceName (rcs m)) (instanceID (rcs m)) w2
    = (Panicked v, w3) ->
  exists m',
    register Now (S fuel) ingress egress m = register Now fuel ingress egress m'
    /\ registered (rcs m') = false /\ done (rcs m') = false /\ mutex (rcs m') = false
    /\ ins m' = ins m
    /\ world m' = w3
    /\ events m' = events m
         ++ [EvLock; EvGet (serviceName (rcs m)) (instanceID (rcs m));
             EvError (RecoverFrom v); EvSleep (1 * time.Second); EvUnlock].
Proof.
  intros Hd Hreg (w1 & Hi & He) Hget.
  destruct (register_unfold fuel ingress egress m) as (_ & _ & Hgo).
  destruct (Hgo Hd Hreg) as (m1 & Hrun & ->).
  exists (unlocked_after_sleep m1). split; [reflexivity|].
  revert Hrun.
  unfold routine, defer_recover, attempt, not_ready, service_Get.
  unfold bind, call, read, ret, emit, update_tryTimes. cbn.
  rewrite Hi. cbn. rewrite He. cbn. rewrite Hget. cbn.
  intros [= <-]. cbn. rewrite <- !app_assoc. repeat split; assumption.
Qed.

(** *** After [Close] *)

Lemma closed_step (a : Action) (s : System) :
  done (server s) = true -> none_in_flight s ->
  done (server (snd (step Now a s))) = true
  /\ none_in_flight (snd (step Now a s))
  /\ trace (snd (step Now a s)) = trace s
  /\ sys_world (snd (step Now a s)) = sys_world s
  /\ registered (server (snd (step Now a s))) = registered (server s).
Proof.
  intros Hd Hnone. destruct a as [sp ing eg| |i].
  - cbn. unfold Register, Registered. cbn.
    destruct (registered (server s)) eqn:Hreg; cbn; repeat split; auto.
    apply Forall_app; split; [exact Hnone|]. constructor; [discriminate | constructor].
  - cbn. unfold Close. rewrite Hd. cbn. auto.
  - destruct (tasks s !! i) as [t|] eqn:Ht; [|cbn; rewrite Ht; auto].
    rewrite (step_run i t s Ht).
    assert (Hpc : pc t <> AtLock).
    { unfold none_in_flight in Hnone. rewrite Forall_forall in Hnone.
      apply (Hnone t), list_elem_of_lookup. eauto. }
    destruct (pc t) as [| |why] eqn:E; [| congruence |].
    + rewrite run_task_select by exact E. rewrite Hd. cbn.
      repeat split; auto. apply Forall_insert; [exact Hnone | discriminate].
    + rewrite (run_task_exited t s why) by exact E. cbn.
      repeat split; auto. apply Forall_insert; [exact Hnone | rewrite E; discriminate].
Qed.

(** X14. [Close] is final.  Once [done] is closed and no goroutine stands
    between its [select] and the lock, nothing that happens afterwards --
    further calls of [Register] or [Close], any scheduling of the
    goroutines, old or new -- reads or writes the store, changes the world,
    adds an event or changes [registered]. *)
Theorem closed_server_is_inert (acts : list Action) (s : System) :
  done (server s) = true -> none_in_flight s ->
  trace (snd (exec Now acts s)) = trace s
  /\ sys_world (snd (exec Now acts s)) = sys_world s
  /\ registered (server (snd (exec Now acts s))) = registered (server s)
  /\ done (server (snd (exec Now acts s))) = true.
Proof.
  revert s; induction acts as [|a acts IH]; intros s Hd Hnone; cbn; [auto|].
  destruct (closed_step a s Hd Hnone) as (Hd' & Hnone' & Htr & Hw & Hreg).
  destruct (step Now a s) as [[[]|v] s1]; cbn in *.
  - destruct (IH s1 Hd' Hnone') as (H1 & H2 & H3 & H4).
    rewrite H1, H2, H3, H4, Htr, Hw, Hreg. auto.
  - auto.
Qed.

(** *** A field that is never read *)
Section FieldNeverRead.

(** A change [g] of the server that commutes with every write the code
    makes and is invisible to every read it makes. *)
Variable g : Server -> Server.
Hypothesis g_registered : forall b r, g (set_registered b r) = set_registered b (g r).
Hypothesis g_mutex : forall b r, g (set_mutex b r) = set_mutex b (g r).
Hypothesis g_tenant : forall t r, g (set_tenant t r) = set_tenant t (g r).
Hypothesis g_done : forall b r, g (set_done b r) = set_done b (g r).
Hypothesis g_reads :
  forall r, registered (g r) = registered r /\ mutex (g r) = mutex r
            /\ done (g r) = done r /\ service (g r) = service r
            /\ serviceName (g r) = serviceName r /\ instanceID (g r) = instanceID r
            /\ IP (g r) = IP r /\ serviceLabels (g r) = serviceLabels r.


















End FieldNeverRead.


End RegistryFacts.

(** ** The storage facade *)
Section StorageFacts.
Import storage.

Context {C KeyValue ClusterSyncer : Type}.

Abbreviation Cluster := (Cluster (C := C) (KeyValue := KeyValue) (ClusterSyncer := ClusterSyncer)).
Abbreviation clusterStorage :=
  (clusterStorage (C := C) (KeyValue := KeyValue) (ClusterSyncer := ClusterSyncer)).
Abbreviation Heap := (Heap (C := C) (KeyValue := KeyValue) (ClusterSyncer := ClusterSyncer)).
Abbreviation Env := (Env (C := C)).

Lemma invoke_delegated {A} (c : Call) (f : C -> A * C) (h : Heap) :
  invoke c f h = delegated c f h.
Proof. unfold invoke, delegated, after_call. destruct (f (cluster (env h))); reflexivity. Qed.

(** With a handle at hand, nothing is created and nothing changes. *)
Lemma mutexGoReady_reuses (h : Heap) (mu : Mutex) :
  mutex (cs h) = Some mu -> mutexGoReady h = (Returned None, h).
Proof. intros H. unfold mutexGoReady, bind, read. cbn. rewrite H. reflexivity. Qed.

(** Without a handle the cluster is asked for one; an error comes back
    wrapped and leaves the facade without a handle. *)
Lemma mutexGoReady_failure (h : Heap) (mu : option Mutex) (err : string) (st : C) :
  mutex (cs h) = None ->
  cls_Mutex (cls (cs h)) (name (cs h)) (cluster (env h)) = ((mu, Some err), st) ->
  mutexGoReady h
    = (Returned (Some (create_failed (name (cs h)) err)),
       after_call (CallMutex (name (cs h))) st h).
Proof.
  intros Hnone Hcall. unfold mutexGoReady, bind, read. cbn. rewrite Hnone.
  rewrite invoke_delegated. unfold delegated. rewrite Hcall. reflexivity.
Qed.

Lemma mutexGoReady_success (h : Heap) (mu : option Mutex) (st : C) :
  mutex (cs h) = None ->
  cls_Mutex (cls (cs h)) (name (cs h)) (cluster (env h)) = ((mu, None), st) ->
  mutexGoReady h
    = (Returned None,
       mkHeap (mkStorage (name (cs h)) (cls (cs h)) mu)
         (env (after_call (CallMutex (name (cs h))) st h))).
Proof.
  intros Hnone Hcall. unfold mutexGoReady, bind, read. cbn. rewrite Hnone.
  rewrite invoke_delegated. unfold delegated. rewrite Hcall. reflexivity.
Qed.

(** Whatever the cluster answers, a facade without a handle asks it. *)
Lemma mutexGoReady_asks (h : Heap) :
  mutex (cs h) = None ->
  calls (env (snd (mutexGoReady h))) = calls (env h) ++ [CallMutex (name (cs h))]
  /\ name (cs (snd (mutexGoReady h))) = name (cs h)
  /\ cls (cs (snd (mutexGoReady h))) = cls (cs h)
  /\ errlog (env (snd (mutexGoReady h))) = errlog (env h).
Proof.
  intros Hnone.
  destruct (cls_Mutex (cls (cs h)) (name (cs h)) (cluster (env h))) as [[mu [err|]] st] eqn:E.
  - rewrite (mutexGoReady_failure h mu err st Hnone E). cbn. auto.
  - rewrite (mutexGoReady_success h mu st Hnone E). cbn. auto.
Qed.

(** When the creation fails, [Lock] and [Unlock] return the wrapped error
    and stop there. *)
Lemma Lock_Unlock_report_failure (h : Heap) (mu : option Mutex) (err : string) (st : C) :
  mutex (cs h) = None ->
  cls_Mutex (cls (cs h)) (name (cs h)) (cluster (env h)) = ((mu, Some err), st) ->
  Lock h = (Returned (Some (create_failed (name (cs h)) err)),
            after_call (CallMutex (name (cs h))) st h)
  /\ Unlock h = (Returned (Some (create_failed (name (cs h)) err)),
                 after_call (CallMutex (name (cs h))) st h).
Proof.
  intros Hnone Hcall. unfold Lock, Unlock, bind.
  rewrite (mutexGoReady_failure h mu err st Hnone Hcall). split; reflexivity.
Qed.

(** C9, as the code has it.  [New] asks the cluster for the mutex handle
    at construction.  [mutexGoReady], which [Lock] and [Unlock] run first,
    is idempotent: with a handle in place it returns nil, the facade and
    the cluster are unchanged and the cluster is not asked; only a facade
    without a handle asks the cluster again.  When that creation fails the
    wrapped error is what [Lock] and [Unlock] return, no handle is kept,
    and the next [Lock] or [Unlock] asks the cluster once more. *)
Theorem C9_mutex_handle_on_demand (h : Heap) :
  (forall (name : string) (cls : Cluster) (e : Env),
     calls (snd (New name cls e)) = calls e ++ [CallMutex name])
  /\ (forall mu, mutex (cs h) = Some mu ->
        mutexGoReady h = (Returned None, h)
        /\ Lock h = delegated CallMutexLock (mu_Lock mu) h
        /\ Unlock h = delegated CallMutexUnlock (mu_Unlock mu) h)
  /\ (mutex (cs h) = None ->
      forall mu err st,
        cls_Mutex (cls (cs h)) (name (cs h)) (cluster (env h)) = ((mu, Some err), st) ->
        let failed := Returned (Some (create_failed (name (cs h)) err)) in
        let h' := after_call (CallMutex (name (cs h))) st h in
        Lock h = (failed, h') /\ Unlock h = (failed, h')
        /\ mutex (cs h') = None
        /\ (exists more, calls (env (snd (Lock h')))
                         = calls (env h') ++ CallMutex (name (cs h)) :: more)
        /\ (exists more, calls (env (snd (Unlock h')))
                         = calls (env h') ++ CallMutex (name (cs h)) :: more)).
Proof.
  split; [|split].
  - intros name cls e. unfold New.
    pose proof (mutexGoReady_asks (mkHeap (mkStorage name cls None) e) eq_refl)
      as (Hcalls & _).
    unfold bind at 1.
    destruct (mutexGoReady (mkHeap (mkStorage name cls None) e)) as [[[msg|]|v] h1];
      cbn in *; exact Hcalls.
  - intros mu Hmu. split; [apply (mutexGoReady_reuses h mu Hmu)|].
    unfold Lock, Unlock, on_handle, bind at 1 3.
    rewrite (mutexGoReady_reuses h mu Hmu). unfold bind, read. cbn. rewrite Hmu.
    rewrite !invoke_delegated. split; reflexivity.
  - intros Hnone mu err st Hcall failed h'.
    assert (Hasks : forall (k : error -> Go Heap error),
              (forall o h1, exists more, calls (env (snd (k o h1))) = calls (env h1) ++ more) ->
              exists more, calls (env (snd (bind mutexGoReady k h')))
                           = calls (env h') ++ CallMutex (name (cs h)) :: more).
    { intros k Hk. unfold bind.
      pose proof (mutexGoReady_asks h' Hnone) as (Hc & _).
      destruct (mutexGoReady h') as [[o|v] h1]; cbn in Hc.
      - destruct (Hk o h1) as (more & Hmore). exists more.
        rewrite Hmore, Hc, <- app_assoc. reflexivity.
      - exists []. exact Hc. }
    assert (Hk : forall c (f : Mutex -> C -> error * C) (o : error) (h1 : Heap),
              exists more,
                calls (env (snd (match o with
                                 | Some _ => ret o
                                 | None => on_handle c f
                                 end h1))) = calls (env h1) ++ more).
    { intros c f o h1. destruct o as [msg|]; [exists []; cbn; symmetry; apply app_nil_r|].
      unfold on_handle, bind, read, panic. cbn.
      destruct (mutex (cs h1)) as [mu1|]; [|exists []; cbn; symmetry; apply app_nil_r].
      rewrite invoke_delegated. exists [c]. reflexivity. }
    split; [|split; [|split; [|split]]].
    + apply (Lock_Unlock_report_failure h mu err st Hnone Hcall).
    + apply (Lock_Unlock_report_failure h mu err st Hnone Hcall).
    + exact Hnone.
    + apply Hasks. intros o h1. apply Hk.
    + apply Hasks. intros o h1. apply Hk.
Qed.

Lemma data_methods_delegate (h : Heap) : data_methods_delegate_to (cls (cs h)) h.
Proof.
  unfold data_methods_delegate_to.
  repeat split; intros;
    unfold Get, GetPrefix, GetRaw, GetRawPrefix, Put, PutUnderLease, PutAndDelete,
      PutAndDeleteUnderLease, Delete, DeletePrefix, Syncer, bind, read;
    cbn; apply invoke_delegated.
Qed.

(** C10. [New] never fails: it returns a facade (not nil) over the given
    cluster under the given name, also when the creation of the mutex
    errs, and then the error is only logged and the facade has no handle.
    On the returned facade, in whatever state the cluster is later, every
    data method is the cluster's own call; and when the creation of the
    mutex was refused and is refused again, [Lock] and [Unlock] return
    that error. *)
Theorem C10_New_never_fails (name : string) (cls : Cluster) (e : Env) :
  exists this e',
    New name cls e = (Returned (Some this), e')
    /\ storage.name this = name
    /\ storage.cls this = cls
    /\ (forall mu err st,
          cls_Mutex cls name (cluster e) = ((mu, Some err), st) ->
          mutex this = None
          /\ e' = mkEnv st (calls e ++ [CallMutex name])
                    (errlog e ++ [create_failed name err]))
    /\ (forall e2,
          data_methods_delegate_to cls (mkHeap this e2)
          /\ (mutex this = None ->
              forall mu err st,
                cls_Mutex cls name (cluster e2) = ((mu, Some err), st) ->
                fst (Lock (mkHeap this e2)) = Returned (Some (create_failed name err))
                /\ fst (Unlock (mkHeap this e2)) = Returned (Some (create_failed name err)))).
Proof.
  set (h0 := mkHeap (mkStorage name cls None) e).
  assert (Hlater : forall this : clusterStorage,
            storage.name this = name -> storage.cls this = cls ->
            forall e2,
              data_methods_delegate_to cls (mkHeap this e2)
              /\ (mutex this = None ->
                  forall mu err st,
                    cls_Mutex cls name (cluster e2) = ((mu, Some err), st) ->
                    fst (Lock (mkHeap this e2)) = Returned (Some (create_failed name err))
                    /\ fst (Unlock (mkHeap this e2))
                       = Returned (Some (create_failed name err)))).
  { intros this Hname Hcls e2. split.
    - rewrite <- Hcls. apply (data_methods_delegate (mkHeap this e2)).
    - intros Hnone mu err st Hcall. subst name cls.
      destruct (Lock_Unlock_report_failure (mkHeap this e2) mu err st Hnone Hcall)
        as (HL & HU).
      rewrite HL, HU. split; reflexivity. }
  destruct (cls_Mutex cls name (cluster e)) as [[mu [err|]] st] eqn:E.
  - pose proof (mutexGoReady_failure h0 mu err st eq_refl E) as Hgo.
    exists (mkStorage name cls None),
           (mkEnv st (calls e ++ [CallMutex name]) (errlog e ++ [create_failed name err])).
    split; [unfold New; fold h0; unfold bind at 1; rewrite Hgo; reflexivity|].
    split; [reflexivity|]. split; [reflexivity|].
    split; [|apply Hlater; reflexivity].
    intros mu' err' st' [= -> -> ->]. split; reflexivity.
  - pose proof (mutexGoReady_success h0 mu st eq_refl E) as Hgo.
    exists (mkStorage name cls mu), (mkEnv st (calls e ++ [CallMutex name]) (errlog e)).
    split; [unfold New; fold h0; unfold bind at 1; rewrite Hgo; reflexivity|].
    split; [reflexivity|]. split; [reflexivity|].
    split; [|apply Hlater; reflexivity].
    intros mu' err' st' [=].
Qed.

(** ** Sequences of calls on the facade *)

Lemma Lock_Unlock_with_handle (h : Heap) (mu : Mutex) :
  mutex (cs h) = Some mu ->
  Lock h = delegated CallMutexLock (mu_Lock mu) h
  /\ Unlock h = delegated CallMutexUnlock (mu_Unlock mu) h.
Proof.
  intros Hmu. unfold Lock, Unlock, on_handle, bind at 1 3.
  rewrite (mutexGoReady_reuses h mu Hmu). unfold bind, read. cbn. rewrite Hmu.
  rewrite !invoke_delegated. split; reflexivity.
Qed.

(** A method call that finds the handle in place, or that is a data
    method, makes the one call of the cluster it stands for, returns, and
    leaves the facade and the log alone. *)
Lemma call_method_effect (m : Method) (h : Heap) :
  mutex (cs h) <> None \/ is_data_method m = true ->
  fst (call_method m h) = Returned tt
  /\ cs (snd (call_method m h)) = cs h
  /\ calls (env (snd (call_method m h))) = calls (env h) ++ [call_of m]
  /\ errlog (env (snd (call_method m h))) = errlog (env h).
Proof.
  intros Hok.
  destruct (data_methods_delegate h)
    as (H1 & H2 & H3 & H4 & H5 & H6 & H7 & H8 & H9 & H10 & H11).
  destruct m; cbn [call_method call_of]; unfold bind;
    rewrite ?H1, ?H2, ?H3, ?H4, ?H5, ?H6, ?H7, ?H8, ?H9, ?H10, ?H11;
    try (cbn; repeat split; reflexivity).
  - destruct (mutex (cs h)) as [mu|] eqn:Hmu;
      [|destruct Hok as [Hok|Hok]; [congruence | discriminate]].
    destruct (Lock_Unlock_with_handle h mu Hmu) as [-> _]. cbn. repeat split.
  - destruct (mutex (cs h)) as [mu|] eqn:Hmu;
      [|destruct Hok as [Hok|Hok]; [congruence | discriminate]].
    destruct (Lock_Unlock_with_handle h mu Hmu) as [_ ->]. cbn. repeat split.
Qed.

Lemma methods_effect_helper (ms : list Method) (h : Heap) :
  mutex (cs h) <> None \/ forallb is_data_method ms = true ->
  cs (run_methods ms h) = cs h
  /\ calls (env (run_methods ms h)) = calls (env h) ++ map call_of ms
  /\ errlog (env (run_methods ms h)) = errlog (env h).
Proof.
  revert h; induction ms as [|m ms IH]; intros h Hok.
  - cbn. rewrite app_nil_r. auto.
  - assert (Hm : mutex (cs h) <> None \/ is_data_method m = true).
    { destruct Hok as [Hok|Hok]; [left; exact Hok|].
      cbn in Hok. apply andb_true_iff in Hok as [Hm _]. right; exact Hm. }
    destruct (call_method_effect m h Hm) as (_ & Hcs & Hcalls & Hlog).
    cbn [run_methods].
    destruct (IH (snd (call_method m h))) as (Hcs' & Hcalls' & Hlog').
    { destruct Hok as [Hok|Hok]; [left; rewrite Hcs; exact Hok|].
      cbn in Hok. apply andb_true_iff in Hok as [_ Hrest]. right; exact Hrest. }
    rewrite Hcs', Hcalls', Hlog', Hcs, Hcalls, Hlog, <- app_assoc. auto.
Qed.

(** X8. Pass-through, in order.  On a facade that has its handle, any
    sequence of method calls -- and on any facade, any sequence of data
    method calls -- reaches the cluster as exactly one call per method, in
    the order of the calls; the mutex is never created again, nothing is
    logged, and the facade itself (name, cluster, handle) does not change. *)
Theorem methods_reach_the_cluster_in_order (ms : list Method) (h : Heap) :
  mutex (cs h) <> None \/ forallb is_data_method ms = true ->
  cs (run_methods ms h) = cs h
  /\ calls (env (run_methods ms h)) = calls (env h) ++ map call_of ms
  /\ errlog (env (run_methods ms h)) = errlog (env h).
Proof. apply methods_effect_helper. Qed.

(** X9. The first [Lock] (or [Unlock]) of a facade without handle, on a
    cluster that hands one out: the handle is created, kept in the facade,
    and used at once; what the handle's own method returns, error
    included, is returned as it is. *)
Theorem first_use_creates_the_handle (h : Heap) (mu : Mutex) (st : C) :
  mutex (cs h) = None ->
  cls_Mutex (cls (cs h)) (name (cs h)) (cluster (env h)) = ((Some mu, None), st) ->
  Lock h
    = (Returned (fst (mu_Lock mu st)),
       mkHeap (mkStorage (name (cs h)) (cls (cs h)) (Some mu))
         (mkEnv (snd (mu_Lock mu st))
            (calls (env h) ++ [CallMutex (name (cs h)); CallMutexLock])
            (errlog (env h))))
  /\ Unlock h
     = (Returned (fst (mu_Unlock mu st)),
        mkHeap (mkStorage (name (cs h)) (cls (cs h)) (Some mu))
          (mkEnv (snd (mu_Unlock mu st))
             (calls (env h) ++ [CallMutex (name (cs h)); CallMutexUnlock])
             (errlog (env h)))).
Proof.
  intros Hnone Hcall. unfold Lock, Unlock, on_handle, bind at 1 3.
  rewrite (mutexGoReady_success h (Some mu) st Hnone Hcall).
  unfold bind, read. cbn. rewrite !invoke_delegated. unfold delegated, after_call. cbn.
  rewrite <- !app_assoc. split; reflexivity.
Qed.


(** X11. A facade built on a cluster that hands out the handle has it from
    the start, with nothing logged, and never asks for another one:
    whatever is called on it later, in whatever state the cluster then is,
    each call goes to the cluster or to that handle, once. *)
Theorem New_with_handle_never_creates_again (name : string) (cls : Cluster) (e : Env)
    (mu : Mutex) (st : C) :
  cls_Mutex cls name (cluster e) = ((Some mu, None), st) ->
  New name cls e
    = (Returned (Some (mkStorage name cls (Some mu))),
       mkEnv st (calls e ++ [CallMutex name]) (errlog e))
  /\ forall (ms : list Method) (e2 : Env),
       cs (run_methods ms (mkHeap (mkStorage name cls (Some mu)) e2))
         = mkStorage name cls (Some mu)
       /\ calls (env (run_methods ms (mkHeap (mkStorage name cls (Some mu)) e2)))
          = calls e2 ++ map call_of ms
       /\ forallb (fun c => negb (is_mutex_creation c)) (map call_of ms) = true.
Proof.
  intros Hcall. split.
  - unfold New, bind at 1.
    rewrite (mutexGoReady_success (mkHeap (mkStorage name cls None) e) (Some mu) st
               eq_refl Hcall).
    reflexivity.
  - intros ms e2.
    destruct (methods_effect_helper ms (mkHeap (mkStorage name cls (Some mu)) e2))
      as (H1 & H2 & _); [left; discriminate|].
    split; [exact H1|]. split; [exact H2|].
    clear. induction ms as [|m ms IH]; [reflexivity|].
    cbn. rewrite IH. destruct m; reflexivity.
Qed.

End StorageFacts.

(** ** Decoding of registry request bodies *)
Section DecodeFacts.
Import registrycenter.

Context {W : Type} (Eureka Consul : string).
Context (json_consul json_eureka xml_eureka : string -> error).

Abbreviation Decode :=
  (DecodeRegistryBody (W := W) Eureka Consul json_consul json_eureka xml_eureka).

Lemma Decode_eureka (rcs : Server) (contentType body : string) :
  RegistryType rcs = Eureka ->
  Decode rcs contentType body
  = decodeByEurekaFormat json_eureka xml_eureka rcs contentType body.
Proof. intros H. unfold DecodeRegistryBody. rewrite H, String.eqb_refl. reflexivity. Qed.

Lemma Decode_consul (rcs : Server) (contentType body : string) :
  RegistryType rcs <> Eureka -> RegistryType rcs = Consul ->
  Decode rcs contentType body = decodeByConsulFormat json_consul rcs body.
Proof.
  intros Hne H. unfold DecodeRegistryBody.
  apply String.eqb_neq in Hne. rewrite Hne, H, String.eqb_refl. reflexivity.
Qed.

Lemma Decode_unrecognized (rcs : Server) (contentType body : string) :
  RegistryType rcs <> Eureka -> RegistryType rcs <> Consul ->
  Decode rcs contentType body = (Some (unrecognized (RegistryType rcs) body), []).
Proof.
  intros H1 H2. unfold DecodeRegistryBody.
  apply String.eqb_neq in H1, H2. rewrite H1, H2. reflexivity.
Qed.

(** X12. [DecodeRegistryBody] returns nil exactly when the registry type
    is one of the two dialects and the decoder chosen for it accepts the
    body: for eureka the JSON decoder when the content type is exactly
    "application/json" and the XML decoder for every other content type;
    for consul the JSON decoder whatever the content type.  Every other
    registry type is an error. *)
Theorem DecodeRegistryBody_accepts (rcs : Server) (contentType body : string) :
  fst (Decode rcs contentType body) = None <->
  (RegistryType rcs = Eureka /\ contentType = "application/json"
   /\ json_eureka body = None)
  \/ (RegistryType rcs = Eureka /\ contentType <> "application/json"
      /\ xml_eureka body = None)
  \/ (RegistryType rcs <> Eureka /\ RegistryType rcs = Consul
      /\ json_consul body = None).
Proof.
  destruct (String.eqb_spec (RegistryType rcs) Eureka) as [He|He].
  - rewrite (Decode_eureka rcs contentType body He). unfold decodeByEurekaFormat.
    destruct (String.eqb_spec contentType "application/json") as [Hc|Hc].
    + destruct (json_eureka body) eqn:E; cbn; split.
      * discriminate.
      * intros [(_ & _ & H)|[(_ & Hn & _)|(Hn & _)]]; congruence.
      * intros _. left. auto.
      * reflexivity.
    + destruct (xml_eureka body) eqn:E; cbn; split.
      * discriminate.
      * intros [(_ & Hn & _)|[(_ & _ & H)|(Hn & _)]]; congruence.
      * intros _. right. left. auto.
      * reflexivity.
  - destruct (String.eqb_spec (RegistryType rcs) Consul) as [Hc|Hc].
    + rewrite (Decode_consul rcs contentType body He Hc). unfold decodeByConsulFormat.
      destruct (json_consul body) eqn:E; cbn; split.
      * discriminate.
      * intros [(Hn & _)|[(Hn & _)|(_ & _ & H)]]; congruence.
      * intros _. right. right. auto.
      * reflexivity.
    + rewrite (Decode_unrecognized rcs contentType body He Hc). cbn. split.
      * discriminate.
      * intros [(Hn & _)|[(Hn & _)|(_ & Hn & _)]]; congruence.
Qed.

(** X13. What [DecodeRegistryBody] reports.  An error of a decoder is
    returned as it is.  A body that eureka's decoder refuses is logged once
    at error level, with content type, body and error; a body that
    consul's decoder refuses is not logged; an unrecognised registry type
    gives the "BUG" error naming the type and the body, and no log.  A body
    that is accepted is logged once, at info level. *)
Theorem DecodeRegistryBody_reports (rcs : Server) (contentType body : string) :
  (forall e, fst (Decode rcs contentType body) = Some e ->
     (RegistryType rcs = Eureka
      /\ (if String.eqb contentType "application/json"
          then json_eureka body else xml_eureka body) = Some e
      /\ snd (Decode rcs contentType body)
         = [Errorf (decode_eureka_failed contentType body e)])
     \/ (RegistryType rcs <> Eureka /\ RegistryType rcs = Consul
         /\ json_consul body = Some e
         /\ snd (Decode rcs contentType body) = [])
     \/ (RegistryType rcs <> Eureka /\ RegistryType rcs <> Consul
         /\ e = unrecognized (RegistryType rcs) body
         /\ snd (Decode rcs contentType body) = []))
  /\ (fst (Decode rcs contentType body) = None ->
      exists line, snd (Decode rcs contentType body) = [Infof line]).
Proof.
  destruct (String.eqb_spec (RegistryType rcs) Eureka) as [He|He].
  - rewrite (Decode_eureka rcs contentType body He). unfold decodeByEurekaFormat.
    destruct (if String.eqb contentType "application/json"
              then json_eureka body else xml_eureka body) as [e0|] eqn:E; cbn; split.
    + intros e [= <-]. left. auto.
    + discriminate.
    + discriminate.
    + intros _. eexists. reflexivity.
  - destruct (String.eqb_spec (RegistryType rcs) Consul) as [Hc|Hc].
    + rewrite (Decode_consul rcs contentType body He Hc). unfold decodeByConsulFormat.
      destruct (json_consul body) as [e0|] eqn:E; cbn; split.
      * intros e [= <-]. right. left. auto.
      * discriminate.
      * discriminate.
      * intros _. eexists. reflexivity.
    + rewrite (Decode_unrecognized rcs contentType body He Hc). cbn. split.
      * intros e [= <-]. right. right. auto.
      * discriminate.
Qed.

End DecodeFacts.

(** ** The code on concrete inputs *)
Section Scenarios.
Import registrycenter sample.

Example format_sample :
  time.Format (time.mkTime 2021 3 9 7 5 0 28800) = "2021-03-09T07:05:00+08:00".
Proof. reflexivity. Qed.

Example format_sample_west :
  time.Format (time.mkTime 1999 1 1 0 0 0 (-12600)) = "1999-01-01T00:00:00-03:30"
  /\ time.is_rfc3339 "1999-01-01T00:00:00-03:30" = true
  /\ time.is_rfc3339 "1999-01-01 00:00:00" = false.
Proof. repeat split. Qed.

Example uint32_wraps : uint32 8080 = 8080 /\ uint32 (-1) = 4294967295.
Proof. split; reflexivity. Qed.

Lemma reachable_exec (acts : list Action) (s : System (W := World)) :
  reachable Now s -> reachable Now (snd (exec Now acts s)).
Proof.
  revert s; induction acts as [|a acts IH]; intros s H; cbn; [exact H|].
  pose proof (reach_step Now a s H) as H1.
  destruct (step Now a s) as [[[]|v] s1]; cbn in *; [apply IH, H1 | exact H1].
Defined.

Lemma reachable_orders (acts : list Action) (w : World) :
  reachable Now (snd (exec Now acts (boot orders w))).
Proof. apply reachable_exec. unfold orders. constructor. Defined.

(** The end-to-end scenario: orders/i-1, both gates ready, nothing in the
    store.  After one iteration the store holds the record, up, stamped,
    and [Registered] answers true. *)
Example end_to_end :
  let s := snd (exec Now [orders_register; DoRun 0; DoRun 0] (boot orders empty_world)) in
  records (sys_world s) !! ("orders", "i-1")
    = Some (spec.mkInstance "orders" "i-1" "10.0.0.5" 8080 {["version" := "v1"]} "up"
              "2021-03-09T12:00:00Z")
  /\ Registered (server s) = true.
Proof. vm_compute. split; reflexivity. Qed.

(** C1 at work: the store knows the instance at its former address; the
    attempt writes the desired record once. *)
Lemma C1_witness :
  exists r,
    written (events (snd (routine Now ingressReady egressReady
                            (orders_mem (world_with orders_moved))))) = [r]
    /\ spec.IP r = "10.0.0.5" /\ spec.Port r = 8080 /\ spec.Status r = "up"
    /\ spec.RegistryTime r = "2021-03-09T12:00:00Z".
Proof.
  destruct (C1_attempt_writes_only_on_drift Now ingressReady egressReady
              (orders_mem (world_with orders_moved))
              (world_with orders_moved) (world_with orders_moved) (Some orders_moved))
    as (new & Hev & _ & Hdrift & _).
  - exists (world_with orders_moved). split; reflexivity.
  - vm_compute. reflexivity.
  - destruct Hdrift as (r & Hw & Hip & Hport & Hst & Htime & _).
    + right. exists orders_moved. split; [reflexivity|]. left. discriminate.
    + exists r. cbn in Hev. rewrite Hev. auto.
Defined.

(** C2 at work, on the state in which orders has just registered. *)
Lemma C2_witness :
  let s := snd (exec Now [orders_register; DoRun 0; DoRun 0] (boot orders empty_world)) in
  registered (server s) = true
  /\ (rises (registered (server s)) (flag_history Now [DoRun 0; DoClose; DoRun 0] s) <= 1)%nat
  /\ exists s' why new,
       iteration Now 0 s = (Returned tt, s')
       /\ pc <$> (tasks s' !! 0%nat) = Some (Exited why)
       /\ registered (server s') = true
       /\ sys_world s' = sys_world s
       /\ trace s' = trace s ++ new
       /\ no_store_access new = true.
Proof.
  intros s.
  destruct (C2_registered_is_monotonic Now s [DoRun 0; DoClose; DoRun 0]
              (reachable_orders _ _)) as (_ & _ & Hrises & _ & Hexit).
  split; [reflexivity|]. split; [exact Hrises|].
  destruct (Hexit eq_refl 0%nat (mkTask AtSelect
              (spec.set_RegistryTime "2021-03-09T12:00:00Z" (spec.set_Status "up" orders_ins))
              1 ingressReady egressReady) eq_refl eq_refl)
    as (s' & why & new & H1 & H2 & H3 & H4 & H5 & H6 & _).
  exists s', why, new. auto 10.
Defined.

(** Against C3 as stated: two calls of [Register] before registration has
    succeeded leave two live goroutines of [register] for one server. *)
Lemma C3_two_calls_two_tasks :
  let s := snd (exec Now [orders_register; orders_register] (boot orders empty_world)) in
  registered (server s) = false
  /\ live_tasks s = 2%nat
  /\ ~ at_most_one_task s.
Proof. vm_compute. repeat split. lia. Qed.

(** C4 at work: ingress is up, egress is not. *)
Lemma C4_witness :
  exists m' new,
    routine Now ingressReady egressReady (orders_mem unready_world) = (Returned tt, m')
    /\ registered (rcs m') = false
    /\ events m' = [] ++ new
    /\ no_store_access new = true.
Proof.
  destruct (C4_gate_blocking Now ingressReady egressReady (orders_mem unready_world))
    as (m' & new & Hrun & _ & Hreg & _ & Hev & Hno).
  - right. exists unready_world, unready_world. split; reflexivity.
  - exists m', new. auto.
Defined.

(** C5 on the code.  orders/i-1 with both gates ready and an empty store
    whose write fails.  With a write that faults: the first iteration
    issues the write, the fault is recovered and logged, and [registered]
    is true although the store holds no record; the next iteration finds
    [registered] set and the goroutine returns: the write is not retried.
    With a write that returns its error: the error is dropped, success is
    logged, and [registered] is true as well. *)
Theorem C5_failed_write_is_not_retried :
  let stamped :=
    spec.mkInstance "orders" "i-1" "10.0.0.5" 8080 {["version" := "v1"]} "up"
      "2021-03-09T12:00:00Z" in
  let s1 := snd (exec Now [orders_register; DoRun 0; DoRun 0] (boot orders failing_put_world)) in
  let s2 := snd (exec Now [DoRun 0; DoRun 0] s1) in
  let e1 := snd (exec Now [orders_register; DoRun 0; DoRun 0] (boot orders erring_put_world)) in
  trace s1 = [EvLock; EvGet "orders" "i-1"; EvPut stamped;
              EvError (RecoverFrom "etcd: request timed out");
              EvSleep 1000000000; EvUnlock]
  /\ registered (server s1) = true
  /\ records (sys_world s1) !! ("orders", "i-1") = None
  /\ pc <$> (tasks s2 !! 0%nat) = Some (Exited AlreadyRegistered)
  /\ trace s2 = trace s1 ++ [EvLock; EvUnlock]
  /\ records (sys_world s2) !! ("orders", "i-1") = None
  /\ trace e1 = [EvLock; EvGet "orders" "i-1"; EvPut stamped;
                 EvInfo (RegistrySucc "orders" "i-1" 1);
                 EvSleep 1000000000; EvUnlock]
  /\ registered (server e1) = true
  /\ records (sys_world e1) !! ("orders", "i-1") = None.
Proof. vm_compute. repeat split. Qed.

(** Against C6 as stated: with egress not ready, the pass sleeps between
    taking the lock and releasing it. *)
Lemma C6_sleeps_with_the_lock :
  let s := snd (exec Now [orders_register; DoRun 0; DoRun 0] (boot orders unready_world)) in
  trace s = [EvLock; EvInfo (GatesNotReady true false); EvSleep 1000000000; EvUnlock]
  /\ ~ released_before_sleep (trace s).
Proof. vm_compute. split; [reflexivity | discriminate]. Qed.

(** C6 at work on the same pass. *)
Lemma C6_witness :
  let s := snd (exec Now [orders_register; DoRun 0] (boot orders unready_world)) in
  exists s' added,
    step Now (DoRun 0) s = (Returned tt, s')
    /\ trace s' = trace s ++ added
    /\ sleeps_holding false added = true
    /\ held_after false added = false.
Proof.
  intros s.
  destruct (C6_lock_is_released_after_the_sleep Now s 0
              (mkTask AtLock orders_ins 0 ingressReady egressReady)
              (reachable_orders _ _) eq_refl eq_refl)
    as (s' & added & Hstep & Htr & _ & Hadded).
  change (registered (server s)) with false in Hadded.
  destruct Hadded as (new & _ & _ & Hsleep & Hheld).
  exists s', added. auto.
Defined.

(** C7 at work: orders is not ready yet, its goroutine is back at the
    [select]; the owner closes, the goroutine returns at its next check,
    and a second [Close] panics. *)
Lemma C7_witness :
  let s := snd (exec Now [orders_register; DoRun 0; DoRun 0; DoClose] (boot orders unready_world)) in
  Close s = (Panicked "close of closed channel", s)
  /\ exists s',
       step Now (DoRun 0) s = (Returned tt, s')
       /\ pc <$> (tasks s' !! 0%nat) = Some (Exited Cancelled)
       /\ sys_world s' = sys_world s /\ trace s' = trace s.
Proof.
  intros s.
  destruct (C7_close_signals_once Now s (reachable_orders _ _))
    as (_ & Hclosed & Hselect & _).
  split; [apply (Hclosed eq_refl)|].
  destruct (Hselect eq_refl 0%nat (mkTask AtSelect orders_ins 1 ingressReady egressReady)
              eq_refl eq_refl) as (s' & Hstep & Ht & _ & Hw & Htr).
  exists s'. rewrite Ht. auto.
Defined.

(** C8 at work: the ingress readiness function faults. *)
Lemma C8_witness :
  let s := snd (exec Now [DoRegister orders_spec brokenReady egressReady; DoRun 0]
                  (boot orders empty_world)) in
  exists s',
    step Now (DoRun 0) s = (Returned tt, s')
    /\ pc <$> (tasks s' !! 0%nat) = Some AtSelect
    /\ trace s' = [EvLock; EvError (RecoverFrom "runtime error: index out of range");
                   EvSleep 1000000000; EvUnlock]
    /\ registered (server s') = false.
Proof.
  intros s.
  destruct (C8_fault_containment Now s 0
              (mkTask AtLock orders_ins 0 brokenReady egressReady)
              "runtime error: index out of range"
              (mkMem (set_mutex true (server s)) orders_ins 1 empty_world [EvLock])
              (reachable_orders _ _) eq_refl eq_refl eq_refl eq_refl)
    as (_ & s' & Hstep & Ht & Htr & _).
  exists s'. split; [exact Hstep|].
  split; [rewrite Ht; reflexivity|]. split; [rewrite Htr; reflexivity|].
  change s' with (snd (Returned tt, s')). rewrite <- Hstep. reflexivity.
Defined.

(** Against C9 as stated: on a healthy cluster [New] has the handle
    created at construction, before any [Lock] or [Unlock]. *)
Lemma C9_handle_created_by_New :
  let r := storage.New "registry" memory_cluster (fresh_env healthy) in
  storage.calls (snd r) = [storage.CallMutex "registry"]
  /\ handles (storage.cluster (snd r)) = 1%nat
  /\ fst r = Returned (Some (storage.mkStorage "registry" memory_cluster (Some handle)))
  /\ ~ storage.created_lazily "registry" memory_cluster (fresh_env healthy).
Proof. vm_compute. repeat split. discriminate. Qed.

(** After a refused creation the handle is created by the first [Lock]
    that finds the cluster healthy, and reused by the [Unlock] after it. *)
Example Lock_after_recovery :
  let this := storage.mkStorage "registry" memory_cluster None in
  let h1 := snd (storage.Lock (storage.mkHeap this (fresh_env healthy))) in
  let h2 := snd (storage.Unlock h1) in
  storage.mutex (storage.cs h1) = Some handle
  /\ storage.calls (storage.env h1) = [storage.CallMutex "registry"; storage.CallMutexLock]
  /\ locked (storage.cluster (storage.env h1)) = true
  /\ storage.calls (storage.env h2)
     = [storage.CallMutex "registry"; storage.CallMutexLock; storage.CallMutexUnlock]
  /\ handles (storage.cluster (storage.env h2)) = 1%nat
  /\ locked (storage.cluster (storage.env h2)) = false.
Proof. vm_compute. repeat split. Qed.

(** On a partitioned cluster [New] still returns a facade, the refusal is
    logged, reads go through, and [Lock] reports the refusal. *)
Example New_on_partitioned_cluster :
  let r := storage.New "registry" memory_cluster (fresh_env partitioned) in
  let this := storage.mkStorage "registry" memory_cluster None in
  fst r = Returned (Some this)
  /\ storage.errlog (snd r) = ["create mutex for registry failed: context deadline exceeded"]
  /\ fst (storage.Get "a" (storage.mkHeap this (snd r))) = Returned (Some "1", None)
  /\ fst (storage.Lock (storage.mkHeap this (snd r)))
     = Returned (Some "create mutex for registry failed: context deadline exceeded").
Proof. vm_compute. repeat split. Qed.

(** X5 at work: orders/i-1 against an empty store. *)
Lemma register_converges_witness :
  exists m' new,
    register Now 2 ingressReady egressReady (orders_mem empty_world)
      = (Returned (Some AlreadyRegistered), m')
    /\ registered (rcs m') = true
    /\ events m' = [] ++ new
    /\ length (written new) = 1%nat.
Proof.
  destruct (register_converges Now ingressReady egressReady (orders_mem empty_world)
              empty_world empty_world None 0 eq_refl eq_refl)
    as (m' & new & Hrun & Hreg & _ & Hev & _ & Hwr & _).
  - exists empty_world. split; reflexivity.
  - reflexivity.
  - exists m', new. auto.
Defined.

(** X6 at work: ingress never ready, five turns. *)
Lemma register_keeps_trying_witness :
  exists m' new,
    register Now 5 neverReady egressReady (orders_mem empty_world) = (Returned None, m')
    /\ registered (rcs m') = false
    /\ tryTimes m' = 5
    /\ no_store_access new = true
    /\ length (sleeps new) = 5%nat.
Proof.
  destruct (register_keeps_trying Now neverReady egressReady 5 (orders_mem empty_world))
    as (m' & new & Hrun & Hreg & _ & _ & Htry & _ & Hno & Hs).
  - intros w. left. exists w. reflexivity.
  - reflexivity.
  - reflexivity.
  - exists m', new. rewrite Htry. repeat split; assumption.
Defined.

(** X7 at work: the read of the store times out. *)
Lemma read_fault_is_retried_witness :
  exists m',
    register Now 3 ingressReady egressReady (orders_mem failing_get_world)
      = register Now 2 ingressReady egressReady m'
    /\ registered (rcs m') = false
    /\ events m' = [EvLock; EvGet "orders" "i-1";
                    EvError (RecoverFrom "etcd: request timed out");
                    EvSleep 1000000000; EvUnlock].
Proof.
  destruct (read_fault_is_retried Now ingressReady egressReady (orders_mem failing_get_world)
              failing_get_world failing_get_world "etcd: request timed out" 2
              eq_refl eq_refl)
    as (m' & Hrun & Hreg & _ & _ & _ & _ & Hev).
  - exists failing_get_world. split; reflexivity.
  - reflexivity.
  - exists m'. auto.
Defined.

(** X14 at work: orders is closed while its goroutine waits at the
    [select]; more calls of [Register] and more scheduling change nothing. *)
Lemma closed_server_is_inert_witness :
  let s := snd (exec Now [orders_register; DoRun 0; DoRun 0; DoClose]
                  (boot orders unready_world)) in
  let s' := snd (exec Now [orders_register; DoRun 1; DoRun 0; DoRun 1; DoRun 0] s) in
  trace s' = trace s /\ sys_world s' = sys_world s /\ registered (server s') = false.
Proof.
  intros s s'.
  destruct (closed_server_is_inert Now
              [orders_register; DoRun 1; DoRun 0; DoRun 1; DoRun 0] s)
    as (Htr & Hw & Hreg & _).
  - reflexivity.
  - unfold none_in_flight. vm_compute. repeat constructor; discriminate.
  - auto.
Defined.

(** In two runs that differ in the port given to the constructor, the same
    record is written, with the ingress port of the service spec. *)
Example port_comes_from_the_service_spec :
  let run p :=
    snd (exec Now [orders_register; DoRun 0; DoRun 0]
           (boot (NewRegistryCenterServer "consul" "orders" "10.0.0.5" p "i-1"
                    {["version" := "v1"]} store) empty_world)) in
  map spec.Port (written (trace (run 1))) = [8080]
  /\ trace (run 1) = trace (run 8080).
Proof. vm_compute. split; reflexivity. Qed.

(** X8 at work: a facade with its handle, five calls. *)
Lemma methods_reach_the_cluster_in_order_witness :
  let h := storage.mkHeap (storage.mkStorage "registry" memory_cluster (Some handle))
             (fresh_env healthy) in
  let ms := [storage.MLock; storage.MPut "b" "2"; storage.MGet "b"; storage.MDelete "a";
             storage.MUnlock] in
  storage.calls (storage.env (storage.run_methods ms h))
  = [storage.CallMutexLock; storage.CallPut "b" "2"; storage.CallGet "b";
     storage.CallDelete "a"; storage.CallMutexUnlock]
  /\ storage.cs (storage.run_methods ms h) = storage.cs h.
Proof.
  intros h ms.
  destruct (methods_reach_the_cluster_in_order ms h) as (Hcs & Hcalls & _).
  - left. discriminate.
  - split; [exact Hcalls | exact Hcs].
Defined.

(** X9 at work: the first [Lock] on a healthy cluster. *)
Lemma first_use_creates_the_handle_witness :
  let h := storage.mkHeap (storage.mkStorage "registry" memory_cluster None)
             (fresh_env healthy) in
  fst (storage.Lock h) = Returned None
  /\ storage.mutex (storage.cs (snd (storage.Lock h))) = Some handle
  /\ storage.calls (storage.env (snd (storage.Lock h)))
     = [storage.CallMutex "registry"; storage.CallMutexLock].
Proof.
  intros h.
  destruct (first_use_creates_the_handle h handle
              (mkClusterState {["a" := "1"]} true 1 false) eq_refl eq_refl) as [HL _].
  rewrite HL. repeat split.
Defined.


(** X11 at work: the facade [New] builds on a healthy cluster. *)
Lemma New_with_handle_never_creates_again_witness :
  fst (storage.New "registry" memory_cluster (fresh_env healthy))
    = Returned (Some (storage.mkStorage "registry" memory_cluster (Some handle)))
  /\ storage.calls (storage.env (storage.run_methods [storage.MLock; storage.MUnlock]
       (storage.mkHeap (storage.mkStorage "registry" memory_cluster (Some handle))
          (fresh_env healthy))))
     = [storage.CallMutexLock; storage.CallMutexUnlock].
Proof.
  destruct (New_with_handle_never_creates_again "registry" memory_cluster (fresh_env healthy)
              handle (mkClusterState {["a" := "1"]} true 1 false) eq_refl)
    as (HN & Hlater).
  destruct (Hlater [storage.MLock; storage.MUnlock] (fresh_env healthy)) as (_ & Hcalls & _).
  rewrite HN, Hcalls. split; reflexivity.
Defined.

(** A content type with a parameter is not "application/json": the body
    goes to the XML decoder. *)
Example eureka_content_type_is_matched_exactly :
  let decode := DecodeRegistryBody (W := World) "eureka" "consul" json_like json_like xml_like in
  let eureka := NewRegistryCenterServer "eureka" "orders" "10.0.0.5" 8080 "i-1" ∅ store in
  fst (decode eureka "application/json" "{}") = None
  /\ fst (decode eureka "application/json; charset=utf-8" "{}") = Some "EOF"
  /\ fst (decode eureka "" "<instance/>") = None
  /\ fst (decode orders "text/xml" "{}") = None
  /\ fst (decode (NewRegistryCenterServer "nacos" "orders" "10.0.0.5" 8080 "i-1" ∅ store)
            "application/json" "{}")
     = Some "BUG: can't recognize registry type: nacos req body: {}".
Proof. vm_compute. repeat split. Qed.

End Scenarios.
